(** * useless_slack_utils: the Slack event handler

    A shallow embedding of [src/slackEventHandler.py] (class
    [SlackEventHandler]) and the properties of its specification.

    The handler is a Python object whose methods talk to two collaborators,
    the Slack client [sc] and the Giphy search.  Methods are embedded as
    computations in a state-and-exception monad: the state holds the
    object's attributes together with everything the method sent to the
    outside (API calls, messages, searches, log lines); the result is
    either a value or a raised Python exception. *)

From Stdlib Require Import ZArith String Ascii List Lia Bool.
From stdpp Require Import base option list gmap strings fin_maps.

Local Open Scope string_scope.
Local Open Scope list_scope.
Local Open Scope Z_scope.

(** ** Python strings *)

Module PyStr.

Definition nl : string := String (ascii_of_nat 10) EmptyString.
Definition tab : string := String (ascii_of_nat 9) EmptyString.

(** [sep.join(l)]. *)
Fixpoint join (sep : string) (l : list string) : string :=
  match l with
  | [] => ""
  | [x] => x
  | x :: l' => x +:+ sep +:+ join sep l'
  end.

(** [s.split(' ')]: cut at every single space; the pieces may be empty
    and there is always at least one. [cur] is the piece being read. *)
Fixpoint split_space_from (cur : string) (s : string) : list string :=
  match s with
  | EmptyString => [cur]
  | String c s' =>
      if Ascii.eqb c " "%char then cur :: split_space_from "" s'
      else split_space_from (cur +:+ String c "") s'
  end.

Definition split_space (s : string) : list string := split_space_from "" s.

(** [needle] occurs somewhere in [text]. *)
Definition contains (needle text : string) : Prop :=
  exists pre post, text = pre +:+ needle +:+ post.

(** [text.find(needle)]: the lowest index where [needle] starts, or -1. *)
Fixpoint find_from (i : Z) (text needle : string) : Z :=
  if String.prefix needle text then i
  else match text with
       | EmptyString => -1
       | String _ text' => find_from (i + 1) text' needle
       end.

Definition find (text needle : string) : Z := find_from 0 text needle.

End PyStr.

(** ** Exceptions and the monad *)

Inductive exn : Type :=
| KeyError (key : string)
| IndexError
| TypeError
| AttributeError
| ValueError
| KeyboardInterrupt
| InvalidFlagNameException (message : string)
| TypeNotHandledException (message : string)
| OtherError (what : string).

Inductive Result (A : Type) : Type :=
| Ok (a : A)
| Raise (e : exn).
Arguments Ok {A} a.
Arguments Raise {A} e.

(** ** Data *)

(** One entry of what [rtm_read] returns: a JSON object with string fields. *)
Abbreviation EventDict := (gmap string string).
(** What [rtm_read] returns: a (possibly empty) list of such objects. *)
Abbreviation Event := (list (gmap string string)).

(** A member of the [users.list] answer. *)
Record RawUser : Type := {
  ru_name : option string;
  ru_id : option string;
  ru_profile : option (gmap string string);
}.

(** The values found in the answers of the Web API. *)
Inductive pyval : Type :=
| PBool (b : bool)
| PStr (s : string)
| PStrs (l : list string)
| PUsers (l : list RawUser).

Abbreviation Response := (gmap string pyval).

(** Everything the handler sends to its collaborators. *)
Inductive Call : Type :=
| ApiCall (method : string) (kwargs : list (string * string))
| SendMessage (channel : option string) (text : string)
| GiphySearch (term : string)
| RtmConnect.

Inductive LogMsg : Type :=
| Debug (s : string)
| DebugEvent (e : Event)
| DebugIgnored (e : Event)
| Error (s : string).

(** One turn of the [while] loop of [begin], as the outside world decides
    it: whether the server is still connected, what [time.time()] reads in
    the loop test, and what [rtm_read()] does. *)
Record Tick : Type := {
  tk_connected : bool;
  tk_time : Z;
  tk_read : Result Event;
}.

(** The Slack client and the clock of one run. [api_answer] may depend on
    the calls made so far. After the last tick of [rtm_ticks] the server is
    seen as disconnected. *)
Record SlackClient : Type := {
  rtm_connect_result : Result bool;
  server_username : string;
  api_answer : list Call -> string -> list (string * string) -> Response;
  rtm_ticks : list Tick;
  time_start : Z;
  time_end : Z;
}.

(** The entry kept for each user by [begin]. *)
Record User : Type := {
  name : string;
  id : string;
  first_name : string;
  last_name : string;
}.

(** The attributes of a [SlackEventHandler]. *)
Record Handler : Type := {
  slack_token : string;
  handler_flags : gmap string bool;
  run_level : string;
  users : option (list string);
  responses : list string;
  stay_channel : option string;
  homophones : option (gmap string string);
}.

Record World : Type := {
  self : Handler;
  calls : list Call;
  logs : list LogMsg;
  rand : list nat;
  slept : nat;
}.

Definition M (A : Type) : Type := World -> Result A * World.

Definition ret {A} (a : A) : M A := fun w => (Ok a, w).

Definition bind {A B} (m : M A) (k : A -> M B) : M B :=
  fun w => match m w with
           | (Ok a, w') => k a w'
           | (Raise e, w') => (Raise e, w')
           end.

Definition raise {A} (e : exn) : M A := fun w => (Raise e, w).

(** [try: m  except ...: h e]; [h] decides which exceptions it handles. *)
Definition try_except {A} (m : M A) (h : exn -> option (M A)) : M A :=
  fun w => match m w with
           | (Ok a, w') => (Ok a, w')
           | (Raise e, w') =>
               match h e with
               | Some k => k w'
               | None => (Raise e, w')
               end
           end.

Declare Scope py_scope.
Delimit Scope py_scope with py.
Notation "x <- m ;; k" := (bind m (fun x => k))
  (at level 100, m at next level, right associativity) : py_scope.
Notation "m ;;; k" := (bind m (fun _ => k))
  (at level 100, right associativity) : py_scope.
Local Open Scope py_scope.

Definition get_self : M Handler := fun w => (Ok (self w), w).

Definition set_self (h : Handler) : M unit :=
  fun w => (Ok tt, {| self := h; calls := calls w; logs := logs w;
                      rand := rand w; slept := slept w |}).

Definition with_calls (w : World) (cs : list Call) : World :=
  {| self := self w; calls := cs; logs := logs w; rand := rand w; slept := slept w |}.

Definition with_logs (w : World) (ls : list LogMsg) : World :=
  {| self := self w; calls := calls w; logs := ls; rand := rand w; slept := slept w |}.

(** A call goes out: it is added to the record of calls. *)
Definition emit (c : Call) : M unit :=
  fun w => (Ok tt, with_calls w (calls w ++ [c])).

(** [logger.debug(...)] and [logger.error(...)] *)
Definition log (l : LogMsg) : M unit :=
  fun w => (Ok tt, with_logs w (logs w ++ [l])).

(** [time.sleep(1)] *)
Definition sleep : M unit :=
  fun w => (Ok tt, {| self := self w; calls := calls w; logs := logs w;
                      rand := rand w; slept := S (slept w) |}).

(** [random.randint(lo, hi)]: the next number of the tape [rand], brought
    into [lo..hi]; [ValueError] on an empty range. *)
Definition randint (lo hi : Z) : M Z :=
  fun w =>
    if hi <? lo then (Raise ValueError, w)
    else match rand w with
         | [] => (Ok lo, w)
         | n :: tape =>
             (Ok (lo + Z.of_nat n mod (hi - lo + 1)),
              {| self := self w; calls := calls w; logs := logs w;
                 rand := tape; slept := slept w |})
         end.

(** [d[k]] on a dict. *)
Definition getitem {V} (d : gmap string V) (k : string) : M V :=
  match d !! k with
  | Some v => ret v
  | None => raise (KeyError k)
  end.

(** [l[i]] on a list, for [0 <= i]. *)
Definition getindex {V} (l : list V) (i : Z) : M V :=
  match l !! Z.to_nat i with
  | Some v => ret v
  | None => raise IndexError
  end.

(** [sc.api_call(method, **kwargs)] *)
Definition api_call (sc : SlackClient) (method : string)
    (kwargs : list (string * string)) : M Response :=
  fun w =>
    (emit (ApiCall method kwargs) ;;;
     ret (api_answer sc (calls w) method kwargs)) w.

(** [sc.rtm_send_message(channel, message)] *)
Definition rtm_send_message (channel : option string) (message : string) : M unit :=
  emit (SendMessage channel message).

(** [sc.rtm_connect()] *)
Definition rtm_connect (sc : SlackClient) : M bool :=
  emit RtmConnect ;;;
  match rtm_connect_result sc with
  | Ok b => ret b
  | Raise e => raise e
  end.

(** Reading the lists found in an answer. The model keeps to answers whose
    ['members'] is a list of strings ([conversations.members]) or a list of
    user objects ([users.list]); any other value is a [TypeError] here. *)
Definition as_strs (v : pyval) : M (list string) :=
  match v with
  | PStrs l => ret l
  | _ => raise TypeError
  end.

Definition as_users (v : pyval) : M (list RawUser) :=
  match v with
  | PUsers l => ret l
  | _ => raise TypeError
  end.

(** A comprehension or a [for] loop whose body may raise. *)
Fixpoint mapM {A B} (f : A -> M B) (l : list A) : M (list B) :=
  match l with
  | [] => ret []
  | x :: l' => y <- f x ;; ys <- mapM f l' ;; ret (y :: ys)
  end.

Fixpoint forM_ {A} (l : list A) (f : A -> M unit) : M unit :=
  match l with
  | [] => ret tt
  | x :: l' => f x ;;; forM_ l' f
  end.

(** Attribute assignment. *)
Definition with_handler_flags (h : Handler) (f : gmap string bool) : Handler :=
  {| slack_token := slack_token h; handler_flags := f; run_level := run_level h;
     users := users h; responses := responses h; stay_channel := stay_channel h;
     homophones := homophones h |}.

Definition with_responses (h : Handler) (r : list string) : Handler :=
  {| slack_token := slack_token h; handler_flags := handler_flags h;
     run_level := run_level h; users := users h; responses := r;
     stay_channel := stay_channel h; homophones := homophones h |}.

Definition with_homophones (h : Handler) (d : option (gmap string string)) : Handler :=
  {| slack_token := slack_token h; handler_flags := handler_flags h;
     run_level := run_level h; users := users h; responses := responses h;
     stay_channel := stay_channel h; homophones := d |}.

(** The keys of [handler_flags], in the order [__init__] inserts them. *)
Definition flag_names : list string :=
  [ "random_reply_flg"; "random_gif_flg"; "set_typing_flg"; "mark_read_flg";
    "someones_talking_about_you_flg"; "magic_eight_flg"; "homophone_flg" ].

Definition default_responses : list string :=
  [ "Wow! That's so interesting!";
    "What hilarious hijinx you've been getting up to!";
    "Where has the time gone?";
    "Curious";
    "I've never thought of it that way.";
    "I'll keep that in mind.";
    "Thanks for letting me know.";
    "I'll be sure to follow up on that." ].

(** The [users] argument of [__init__]: [None], ['All'] or a list. *)
Inductive UsersArg : Type :=
| UsersNone
| UsersAll
| UsersList (l : list string).

(** The argument of [add_responses], by its Python type. *)
Inductive NewResponses : Type :=
| NRStr (s : string)
| NRList (l : list string)
| NROther (type_repr : string).

Definition type_repr_of (n : NewResponses) : string :=
  match n with
  | NRStr _ => "<class 'str'>"
  | NRList _ => "<class 'list'>"
  | NROther t => t
  end.

(** [list(set(l))]: the distinct elements of [l]. Python fixes no order
    for them; the order here is that of stdpp's [elements]. *)
Definition list_of_set (l : list string) : list string :=
  elements (list_to_set l : gset string).

(** [r] has an ['ok'] key whose value is [False]. *)
Definition reports_failure (r : Response) : bool :=
  match r !! "ok" with
  | Some (PBool false) => true
  | _ => false
  end.

(** The test of lines 174-176. *)
Definition in_scope (run_level msg_type : string) : bool :=
  (String.eqb run_level "DM Only" && String.eqb msg_type "IM")
  || (String.eqb run_level "Private" && negb (String.eqb msg_type "Public"))
  || String.eqb run_level "All".

(** The text sent by [someones_talking_about_you]. *)
Definition pad : string := "                        ".

Definition talking_message (user_ids members : list string) (sender text : string)
  : string :=
  "Hey <@" +:+ PyStr.join "> <@" user_ids +:+ "> " +:+ PyStr.nl +:+
  pad +:+ PyStr.nl +:+
  pad +:+ "<@" +:+ PyStr.join "> <@" members +:+
    "> were talking about you in a private message!" +:+ PyStr.nl +:+
  pad +:+ PyStr.nl +:+
  pad +:+ "Here's what <@" +:+ sender +:+ "> said:" +:+ PyStr.nl +:+
  pad +:+ PyStr.nl +:+
  pad +:+ text +:+ PyStr.nl +:+
  pad.

(** The text sent by [homophone_suggest]. *)
Definition homophone_message (user k v : string) : string :=
  "Hey <@" +:+ user +:+ ">!" +:+ PyStr.nl +:+ PyStr.tab +:+
  "You typed " +:+ k +:+ ", but you probably meant " +:+ v +:+ ".".

(** ** A small workspace

    Concrete collaborators and events, on which the properties below are
    exercised: a direct-message channel [D1], a private group [G1] (its
    only member is [U1]), any other channel public; two users with full
    names, Ann Lee ([U1]) and Bob Roy ([U2]); the bot is called [evan]. *)

Module Demo.

(** Modelled from the spec: [strip_punctuation] of [src/str_utils.py] is
    not among the sources; the spec has it strip punctuation from a token.
    Here every character of Python's [string.punctuation] is dropped. *)
Definition is_punctuation (c : ascii) : bool :=
  let n := nat_of_ascii c in
  ((33 <=? n)%nat && (n <=? 47)%nat) || ((58 <=? n)%nat && (n <=? 64)%nat)
  || ((91 <=? n)%nat && (n <=? 96)%nat) || ((123 <=? n)%nat && (n <=? 126)%nat).

Fixpoint strip_punctuation (s : string) : string :=
  match s with
  | EmptyString => EmptyString
  | String c s' =>
      if is_punctuation c then strip_punctuation s'
      else String c (strip_punctuation s')
  end.

(** What [str.lower()] gives on ASCII text, which is all the examples
    below use: the letters A-Z are lowered and nothing else changes. It is
    not [str.lower()] on other text; the theorems hold for any function in
    its place. *)
Definition ascii_lower_char (c : ascii) : ascii :=
  let n := nat_of_ascii c in
  if ((65 <=? n)%nat && (n <=? 90)%nat)%bool then ascii_of_nat (n + 32) else c.

Fixpoint ascii_lower (s : string) : string :=
  match s with
  | EmptyString => EmptyString
  | String c s' => String (ascii_lower_char c) (ascii_lower s')
  end.

(** Modelled from the spec: [load_homophones] of [src/misc_utils.py] is not
    among the sources; the spec has it yield a table from lower-case words
    to corrections, an override dictionary taking the place of the default
    one. The default table here has one entry. *)
Definition load_homophones (init_homophones : option (gmap string string))
  : gmap string string :=
  match init_homophones with
  | Some d => d
  | None => {[ "there" := "their" ]}
  end.

Definition giphy_search (term : string) : list string :=
  [ "https://giphy.test/" +:+ term ].

Definition ann : RawUser :=
  {| ru_name := Some "ann"; ru_id := Some "U1";
     ru_profile := Some {[ "first_name" := "Ann"; "last_name" := "Lee" ]} |}.

Definition bob : RawUser :=
  {| ru_name := Some "bob"; ru_id := Some "U2";
     ru_profile := Some {[ "first_name" := "Bob"; "last_name" := "Roy" ]} |}.

Definition ok_answer (b : bool) : Response := {[ "ok" := PBool b ]}.

Definition channel_is (c : string) (kwargs : list (string * string)) : bool :=
  match kwargs with
  | (_, c') :: _ => String.eqb c c'
  | [] => false
  end.

Definition answer (history : list Call) (method : string)
    (kwargs : list (string * string)) : Response :=
  if String.eqb method "im.info" then ok_answer (channel_is "D1" kwargs)
  else if String.eqb method "groups.info" then ok_answer (channel_is "G1" kwargs)
  else if String.eqb method "conversations.members" then
    {[ "ok" := PBool true; "members" := PStrs ["U1"] ]}
  else if String.eqb method "users.list" then
    {[ "ok" := PBool true; "members" := PUsers [ann; bob] ]}
  else ok_answer true.

Definition tick (event : Event) : Tick :=
  {| tk_connected := true; tk_time := 0; tk_read := Ok event |}.

(** A client that connects (or not) and then delivers the given events,
    one per turn. *)
Definition client (connects : bool) (events : list Event) : SlackClient :=
  {| rtm_connect_result := Ok connects;
     server_username := "evan";
     api_answer := answer;
     rtm_ticks := map tick events;
     time_start := 0;
     time_end := 1 |}.

(** A client to which [conversations.members] is refused: the answer has
    no member list. *)
Definition refused_client (events : list Event) : SlackClient :=
  {| rtm_connect_result := Ok true;
     server_username := "evan";
     api_answer := fun history method kwargs =>
       if String.eqb method "conversations.members" then ok_answer false
       else answer history method kwargs;
     rtm_ticks := map tick events;
     time_start := 0;
     time_end := 1 |}.

Definition message_fields (channel user text : string) : gmap string string :=
  {[ "type" := "message"; "channel" := channel; "user" := user;
     "text" := text; "ts" := "1.0" ]}.

Definition message (channel user text : string) : Event :=
  [ message_fields channel user text ].

(** A message whose sender is not given. *)
Definition anonymous_message (channel text : string) : Event :=
  [ {[ "type" := "message"; "channel" := channel; "text" := text;
       "ts" := "1.0" ]} ].

(** An event of no type, as the stream sends for replies to pings. *)
Definition untyped_event (channel : string) : Event :=
  [ {[ "channel" := channel; "reply_to" := "1" ]} ].

(** The event that opens a stream. *)
Definition hello : Event := [ {[ "type" := "hello" ]} ].


Definition directory : list User :=
  [ {| name := "ann"; id := "U1"; first_name := "Ann"; last_name := "Lee" |};
    {| name := "bob"; id := "U2"; first_name := "Bob"; last_name := "Roy" |} ].

Definition flags (random_reply mark_read talking magic_eight homophone : bool)
  : gmap string bool :=
  list_to_map
    [ ("random_reply_flg", random_reply); ("random_gif_flg", false);
      ("set_typing_flg", false); ("mark_read_flg", mark_read);
      ("someones_talking_about_you_flg", talking);
      ("magic_eight_flg", magic_eight); ("homophone_flg", homophone) ].

Definition handler (fl : gmap string bool) (level : string)
    (allowed : option (list string)) (table : option (gmap string string))
  : Handler :=
  {| slack_token := "xoxp-test"; handler_flags := fl; run_level := level;
     users := allowed; responses := default_responses;
     stay_channel := Some "G9"; homophones := table |}.

Definition world (h : Handler) : World :=
  {| self := h; calls := []; logs := []; rand := []; slept := 0 |}.

End Demo.

(** ** The methods of [SlackEventHandler] *)

Section Handler.

#[local] Set Default Proof Using "Type".

(** The helpers of [src/str_utils.py] and [src/misc_utils.py] and the two
    libraries are not part of the sources at hand: they are parameters. *)
Variable find_element_in_string : string -> string -> Z.
Variable strip_punctuation : string -> string.
Variable load_homophones : option (gmap string string) -> gmap string string.
(** [SlackClient(token)] *)
Variable new_SlackClient : string -> SlackClient.
(** [giphypop.Giphy().search(term)], as the list of its results. *)
Variable giphy_search : string -> list string.
(** [s.lower()]. Python lowers every cased character, of whatever script;
    the builtin is a parameter here, so that what is proved of the
    behaviours holds whatever it does to a text. *)
Variable lower : string -> string.

(** [self.handler_flags[name]] *)
Definition flag (name : string) : M bool :=
  h <- get_self ;; getitem (handler_flags h) name.

(** [event[0][key]] *)
Definition field (event : Event) (key : string) : M string :=
  e0 <- getindex event 0 ;; getitem e0 key.

(** The [except KeyError] clause shared by the five behaviours
    (lines 246-251 and the like). *)
Definition ignore_untyped (event : Event) (e : exn) : option (M unit) :=
  match e with
  | KeyError _ =>
      Some (e0 <- getindex event 0 ;;
            if bool_decide (e0 !! "type" = None) then
              log (Debug "Don't worry about this one.") ;;;
              log (DebugEvent event)
            else raise e)
  | _ => None
  end.

(** [__init__] (lines 50-86). *)
Definition init (token : string)
    (random_reply_flg random_gif_flg set_typing_flg mark_read_flg
     someones_talking_about_you_flg magic_eight_flg homophone_flg : bool)
    (run_level_arg : string) (users_arg : UsersArg)
    (responses_arg : option (list string)) (stay_channel_arg : option string)
    (init_homophones : option (gmap string string)) : M unit :=
  let flags : gmap string bool :=
    list_to_map
      [ ("random_reply_flg", random_reply_flg);
        ("random_gif_flg", random_gif_flg);
        ("set_typing_flg", set_typing_flg);
        ("mark_read_flg", mark_read_flg);
        ("someones_talking_about_you_flg", someones_talking_about_you_flg);
        ("magic_eight_flg", magic_eight_flg);
        ("homophone_flg", homophone_flg) ] in
  us <- match users_arg with
        | UsersAll =>
            let sc := new_SlackClient token in
            rtm_connect sc ;;;
            r <- api_call sc "users.list" [] ;;
            ms <- getitem r "members" ;;
            raw <- as_users ms ;;
            ids <- mapM (fun user => match ru_id user with
                                     | Some i => ret i
                                     | None => raise (KeyError "id")
                                     end) raw ;;
            ret (Some ids)
        | UsersNone => ret None
        | UsersList l => ret (Some l)
        end ;;
  set_self
    {| slack_token := token;
       handler_flags := flags;
       run_level := run_level_arg;
       users := us;
       responses := match responses_arg with
                    | Some (r :: rs) => r :: rs
                    | _ => default_responses
                    end;
       stay_channel := stay_channel_arg;
       homophones := if homophone_flg then Some (load_homophones init_homophones)
                     else None |}.

(** [update_flag] (lines 97-112). *)
Definition update_flag (flag_name : string) (flag_value : bool) : M unit :=
  try_except
    (h <- get_self ;;
     (if bool_decide (handler_flags h !! flag_name = None) then
        raise (InvalidFlagNameException
                 (PyStr.nl +:+ flag_name +:+ " is not in list of flags." +:+ PyStr.nl +:+
                  "Acceptable flag names are: " +:+
                  PyStr.join ", "
                    (filter (fun k => is_Some (handler_flags h !! k)) flag_names)
                  +:+ "."))
      else ret tt) ;;;
     set_self (with_handler_flags h (<[flag_name := flag_value]> (handler_flags h))) ;;;
     h <- get_self ;;
     if String.eqb flag_name "homophone_flg" && flag_value then
       set_self (with_homophones h (Some (load_homophones None)))
     else
       set_self (with_homophones h None))
    (fun e => match e with
              | InvalidFlagNameException message =>
                  Some (log (Error message) ;;; raise e)
              | _ => None
              end).

(** [add_responses] (lines 123-135). A [str] already in the pool fails
    the first test and is no [list]: it reaches the [else]. *)
Definition add_responses (new_responses : NewResponses) : M unit :=
  let unhandled : M unit :=
    raise (TypeNotHandledException
             ("Passed data type " +:+ type_repr_of new_responses +:+
              " to method 'add_responses.' Only str or list allowed.")) in
  try_except
    (h <- get_self ;;
     match new_responses with
     | NRStr s =>
         if bool_decide (s ∉ responses h) then
           set_self (with_responses h (responses h ++ [s]))
         else unhandled
     | NRList l =>
         set_self (with_responses h (responses h ++ l)) ;;;
         h <- get_self ;;
         set_self (with_responses h (list_of_set (responses h)))
     | NROther _ => unhandled
     end)
    (fun e => match e with
              | TypeNotHandledException message =>
                  Some (log (Error message) ;;; raise e)
              | _ => None
              end).

(** [get_msg_type] (lines 210-218). *)
Definition get_msg_type (sc : SlackClient) (event : Event) : M string :=
  channel <- field event "channel" ;;
  im_info <- api_call sc "im.info" [("channel", channel)] ;;
  if reports_failure im_info then
    channel <- field event "channel" ;;
    dm_info <- api_call sc "groups.info" [("channel", channel)] ;;
    if reports_failure dm_info then ret "Public" else ret "Private"
  else ret "IM".

(** [event[0]['user'] in self.users]: a membership test on [None] is a
    [TypeError]. *)
Definition in_users (user : string) : M bool :=
  h <- get_self ;;
  match users h with
  | Some l => ret (bool_decide (user ∈ l))
  | None => raise TypeError
  end.

(** [event and event[0]['type'] == 'message' and (event[0]['user'] in
    self.users)], the test of [random_reply] and [magic_eight]. *)
Definition message_from_listed_user (event : Event) : M bool :=
  match event with
  | [] => ret false
  | _ =>
      type <- field event "type" ;;
      if String.eqb type "message" then
        user <- field event "user" ;;
        in_users user
      else ret false
  end.

(** [random_reply] (lines 231-251). *)
Definition random_reply (sc : SlackClient) (event : Event) : M unit :=
  try_except
    (go <- message_from_listed_user event ;;
     if go : bool then
       h <- get_self ;;
       randint <- randint 0 (Z.of_nat (length (responses h)) - 1) ;;
       h <- get_self ;;
       message <- getindex (responses h) randint ;;
       gif <- flag "random_gif_flg" ;;
       message <- (if gif : bool then
                     emit (GiphySearch message) ;;;
                     v <- getindex (giphy_search message) 0 ;;
                     ret (message +:+ PyStr.nl +:+ v)
                   else ret message) ;;
       channel <- field event "channel" ;;
       rtm_send_message (Some channel) message
     else ret tt)
    (ignore_untyped event).

(** [mark_read] (lines 263-285). *)
Definition mark_read (sc : SlackClient) (event : Event) (msg_type : string)
  : M unit :=
  try_except
    (type <- field event "type" ;;
     if String.eqb type "message" then
       text <- field event "text" ;;
       if negb (find_element_in_string text "<" =? -1)
          && negb (find_element_in_string text ">" =? -1)
          && (find_element_in_string text (server_username sc) =? -1)
       then
         if String.eqb msg_type "IM" then
           channel <- field event "channel" ;;
           ts <- field event "ts" ;;
           api_call sc "im.mark" [("channel", channel); ("ts", ts)] ;;; ret tt
         else if String.eqb msg_type "Private" then
           channel <- field event "channel" ;;
           ts <- field event "ts" ;;
           api_call sc "groups.mark" [("channel", channel); ("ts", ts)] ;;; ret tt
         else
           channel <- field event "channel" ;;
           ts <- field event "ts" ;;
           api_call sc "channels.mark" [("channel", channel); ("ts", ts)] ;;; ret tt
       else log (Debug "Don't change")
     else ret tt)
    (ignore_untyped event).

(** The test of lines 306-307 for one user of the directory. *)
Definition named_in (text : string) (user : User) : bool :=
  negb (find_element_in_string (lower text)
          (lower (first_name user) +:+ " " +:+ lower (last_name user))
        =? -1).

(** [convo_members['members']] *)
Definition members_of (convo_members : Response) : M (list string) :=
  v <- getitem convo_members "members" ;; as_strs v.

(** The loop of lines 315-317: is some id of [user_ids] not a member? *)
Fixpoint some_user_not_in_convo (convo_members : Response)
    (user_ids : list string) (found : bool) : M bool :=
  match user_ids with
  | [] => ret found
  | user :: rest =>
      members <- members_of convo_members ;;
      some_user_not_in_convo convo_members rest
        (if bool_decide (user ∉ members) then true else found)
  end.

(** [someones_talking_about_you] (lines 300-339). *)
Definition someones_talking_about_you (sc : SlackClient) (event : Event)
    (msg_type : string) (all_users : list User) : M unit :=
  try_except
    (type <- field event "type" ;;
     if String.eqb type "message" && negb (String.eqb msg_type "Public") then
       text <- field event "text" ;;
       let users_to_notify := List.filter (named_in text) all_users in
       if (0 <? Z.of_nat (length users_to_notify)) then
         let user_ids := map id users_to_notify in
         channel <- field event "channel" ;;
         convo_members <- api_call sc "conversations.members" [("channel", channel)] ;;
         not_all_users_in_convo <-
           some_user_not_in_convo convo_members user_ids false ;;
         if not_all_users_in_convo : bool then
           members <- members_of convo_members ;;
           sender <- field event "user" ;;
           h <- get_self ;;
           rtm_send_message (stay_channel h)
             (talking_message user_ids members sender text)
         else ret tt
       else ret tt
     else ret tt)
    (ignore_untyped event).

(** [magic_eight] (lines 350-368). *)
Definition magic_eight (sc : SlackClient) (event : Event) : M unit :=
  try_except
    (go <- message_from_listed_user event ;;
     if go : bool then
       randint <- randint 0 10 ;;
       text <- field event "text" ;;
       if 0 <=? find_element_in_string text "?" then
         emit (GiphySearch "magic eight ball") ;;;
         v <- getindex (giphy_search "magic eight ball") randint ;;
         let message := v +:+ PyStr.nl in
         text <- field event "text" ;;
         log (Debug ("TEXT: " +:+ text)) ;;;
         channel <- field event "channel" ;;
         rtm_send_message (Some channel) message
       else log (Debug "No question mark found")
     else ret tt)
    (ignore_untyped event).

(** [self.homophones.keys()] and [self.homophones[word]]: on [None] the
    first is an [AttributeError], the second a [TypeError]. *)
Definition homophones_keys : M (gset string) :=
  h <- get_self ;;
  match homophones h with
  | Some d => ret (dom d)
  | None => raise AttributeError
  end.

Definition homophones_item (word : string) : M string :=
  h <- get_self ;;
  match homophones h with
  | Some d => getitem d word
  | None => raise TypeError
  end.

(** The comprehension of lines 380-382 over the words of the text. *)
Fixpoint homophone_words (words : list string) : M (list string) :=
  match words with
  | [] => ret []
  | word :: rest =>
      keys <- homophones_keys ;;
      if bool_decide (strip_punctuation word ∈ keys) then
        found <- homophone_words rest ;;
        ret (strip_punctuation word :: found)
      else homophone_words rest
  end.

(** [homophone_suggest] (lines 379-396). *)
Definition homophone_suggest (sc : SlackClient) (event : Event) : M unit :=
  try_except
    (text <- field event "text" ;;
     text_words <- homophone_words (PyStr.split_space (lower text)) ;;
     forM_ text_words (fun word =>
       user <- field event "user" ;;
       v <- homophones_item word ;;
       let message := homophone_message user word v in
       channel <- field event "channel" ;;
       rtm_send_message (Some channel) message))
    (ignore_untyped event).

(** The entry of [all_users] for one member of [users.list], or nothing
    when its profile lacks one of the two names (lines 151-159). *)
Definition directory_entry (user : RawUser) : M (option User) :=
  profile <- match ru_profile user with
             | Some p => ret p
             | None => raise (KeyError "profile")
             end ;;
  if bool_decide (is_Some (profile !! "first_name"))
     && bool_decide (is_Some (profile !! "last_name")) then
    n <- match ru_name user with Some n => ret n | None => raise (KeyError "name") end ;;
    i <- match ru_id user with Some i => ret i | None => raise (KeyError "id") end ;;
    f <- getitem profile "first_name" ;;
    l <- getitem profile "last_name" ;;
    ret (Some {| name := n; id := i; first_name := f; last_name := l |})
  else ret None.

Definition directory (raw : list RawUser) : M (list User) :=
  entries <- mapM directory_entry raw ;;
  ret (omap (fun x => x) entries).

(** [all_users], from the answer of [users.list] (lines 151-159). *)
Definition load_directory (sc : SlackClient) : M (list User) :=
  r <- api_call sc "users.list" [] ;;
  ms <- getitem r "members" ;;
  raw <- as_users ms ;;
  directory raw.

(** [if self.handler_flags[name]: behavior] *)
Definition guarded (name : string) (behavior : M unit) : M unit :=
  enabled <- flag name ;;
  if enabled : bool then behavior else ret tt.

(** The five guarded calls of lines 179-188. *)
Definition run_behaviors (sc : SlackClient) (event : Event) (msg_type : string)
    (all_users : list User) : M unit :=
  guarded "random_reply_flg" (random_reply sc event) ;;;
  guarded "mark_read_flg" (mark_read sc event msg_type) ;;;
  guarded "someones_talking_about_you_flg"
    (someones_talking_about_you sc event msg_type all_users) ;;;
  guarded "magic_eight_flg" (magic_eight sc event) ;;;
  guarded "homophone_flg" (homophone_suggest sc event).

(** Lines 172-190: classify, test the run level, dispatch. *)
Definition dispatch (sc : SlackClient) (event : Event) (all_users : list User)
  : M unit :=
  msg_type <- get_msg_type sc event ;;
  log (Debug msg_type) ;;;
  h <- get_self ;;
  if in_scope (run_level h) msg_type then
    run_behaviors sc event msg_type all_users
  else log (Debug "Message not in scope.").

(** The body of the [while] loop, with its [try] (lines 167-194). *)
Definition handle_event (sc : SlackClient) (event : Event) (all_users : list User)
  : M unit :=
  try_except
    ((match event with
      | [] => ret tt
      | _ => log (DebugEvent event) ;;; dispatch sc event all_users
      end) ;;;
     sleep)
    (fun e => match e with
              | KeyError _ => Some (log (DebugIgnored event))
              | _ => None
              end).

(** The [while] loop of line 164 over the turns the outside world
    grants. *)
Fixpoint event_loop (sc : SlackClient) (all_users : list User)
    (start_time length : Z) (ticks : list Tick) : M unit :=
  match ticks with
  | [] => ret tt
  | tk :: rest =>
      if tk_connected tk
         && ((tk_time tk <=? start_time + length) || (length =? -1)) then
        event <- match tk_read tk with
                 | Ok event => ret event
                 | Raise e => raise e
                 end ;;
        handle_event sc event all_users ;;;
        event_loop sc all_users start_time length rest
      else ret tt
  end.

(** [begin] (lines 146-200). *)
Definition begin (length : Z) : M unit :=
  h <- get_self ;;
  let sc := new_SlackClient (slack_token h) in
  try_except
    (connected <- rtm_connect sc ;;
     if connected : bool then
       all_users <- load_directory sc ;;
       let start_time := time_start sc in
       event_loop sc all_users start_time length (rtm_ticks sc) ;;;
       if start_time + length <? time_end sc then
         log (Debug ("Event handling completed." +:+ PyStr.nl +:+
                     "Stopping Slack monitor."))
       else ret tt
     else ret tt)
    (fun e => match e with
              | KeyboardInterrupt =>
                  Some (log (Debug "Stopping Slack monitor.") ;;; raise e)
              | _ => None
              end).

(** * Properties *)

(** ** Strings *)

Lemma append_cons (c : ascii) (a b : string) :
  String c a +:+ b = String c (a +:+ b).
Proof. reflexivity. Qed.

Lemma append_nil (b : string) : "" +:+ b = b.
Proof. reflexivity. Qed.

Lemma prefix_true_iff (a b : string) :
  String.prefix a b = true <-> exists post, b = a +:+ post.
Proof.
  revert b. induction a as [|c a IH]; intros b.
  - split; [intros _; exists b; reflexivity | intros _; destruct b; reflexivity].
  - destruct b as [|d b]; simpl.
    + split; [discriminate | intros [post H]; discriminate].
    + destruct (Ascii.ascii_dec c d) as [->|Hne].
      * rewrite IH. split; intros [post H]; exists post.
        -- now rewrite H.
        -- rewrite append_cons in H. now inversion H.
      * split; [discriminate | intros [post H]; rewrite append_cons in H; congruence].
Qed.

Lemma contains_cons_iff (needle : string) (c : ascii) (text : string) :
  String.prefix needle (String c text) = false ->
  PyStr.contains needle (String c text) <-> PyStr.contains needle text.
Proof.
  intros Hp. split; intros (pre & post & H).
  - destruct pre as [|d pre].
    + assert (String.prefix needle (String c text) = true) as Ht
        by (apply prefix_true_iff; exists post; exact H).
      congruence.
    + rewrite append_cons in H. inversion H; subst. exists pre, post. reflexivity.
  - exists (String c pre), post. rewrite append_cons. now rewrite H.
Qed.

Lemma find_from_spec (needle text : string) (i : Z) :
  0 <= i ->
  (PyStr.find_from i text needle <> -1 <-> PyStr.contains needle text)
  /\ -1 <= PyStr.find_from i text needle.
Proof.
  revert i. induction text as [|c text IH]; intros i Hi; cbn [PyStr.find_from].
  - destruct needle as [|d needle]; simpl.
    + split; [|lia]. split; [|lia]. intros _. exists "", "". reflexivity.
    + split; [|lia]. split; [congruence|]. intros (pre & post & H).
      destruct pre; discriminate.
  - destruct (String.prefix needle (String c text)) eqn:Hp.
    + split; [|lia]. split; [|lia]. intros _.
      apply prefix_true_iff in Hp as [post Hpost]. exists "", post. exact Hpost.
    + rewrite (contains_cons_iff _ _ _ Hp). apply IH. lia.
Qed.

(** [PyStr.find] misses exactly the strings that do not occur. *)
Lemma find_present (text needle : string) :
  PyStr.find text needle <> -1 <-> PyStr.contains needle text.
Proof. apply find_from_spec. lia. Qed.

(** ** The monad *)

Lemma bind_ok {A B} (m : M A) (k : A -> M B) w a w' :
  m w = (Ok a, w') -> bind m k w = k a w'.
Proof. unfold bind. now intros ->. Qed.

Lemma bind_raise {A B} (m : M A) (k : A -> M B) w e w' :
  m w = (Raise e, w') -> bind m k w = (Raise e, w').
Proof. unfold bind. now intros ->. Qed.

Lemma bind_assoc {A B C} (m : M A) (k : A -> M B) (k' : B -> M C) w :
  bind (bind m k) k' w = bind m (fun a => bind (k a) k') w.
Proof. unfold bind. destruct (m w) as [[a|e] w']; reflexivity. Qed.

Lemma try_except_ok {A} (m : M A) h w a w' :
  m w = (Ok a, w') -> try_except m h w = (Ok a, w').
Proof. unfold try_except. now intros ->. Qed.

Lemma try_except_raise {A} (m : M A) h w e w' :
  m w = (Raise e, w') ->
  try_except m h w = match h e with Some k => k w' | None => (Raise e, w') end.
Proof. unfold try_except. now intros ->. Qed.

(** A computation that never assigns an attribute of [self]. *)
Definition keeps_self {A} (m : M A) : Prop :=
  forall w, self (snd (m w)) = self w.

Lemma keeps_ret {A} (a : A) : keeps_self (ret a).
Proof. now intros w. Qed.

Lemma keeps_raise {A} e : keeps_self (@raise A e).
Proof. now intros w. Qed.

Lemma keeps_bind {A B} (m : M A) (k : A -> M B) :
  keeps_self m -> (forall a, keeps_self (k a)) -> keeps_self (bind m k).
Proof.
  intros Hm Hk w. unfold bind. specialize (Hm w).
  destruct (m w) as [[a|e] w']; simpl in *; [|exact Hm].
  now rewrite Hk.
Qed.

Lemma keeps_try_except {A} (m : M A) h :
  keeps_self m -> (forall e k, h e = Some k -> keeps_self k) ->
  keeps_self (try_except m h).
Proof.
  intros Hm Hh w. unfold try_except. specialize (Hm w).
  destruct (m w) as [[a|e] w']; simpl in *; [exact Hm|].
  destruct (h e) as [k|] eqn:He; simpl; [|exact Hm].
  now rewrite (Hh _ _ He).
Qed.

Lemma keeps_get_self : keeps_self get_self.
Proof. now intros w. Qed.

Lemma keeps_emit c : keeps_self (emit c).
Proof. now intros w. Qed.

Lemma keeps_log l : keeps_self (log l).
Proof. now intros w. Qed.

Lemma keeps_sleep : keeps_self sleep.
Proof. now intros w. Qed.

Lemma keeps_randint lo hi : keeps_self (randint lo hi).
Proof.
  intros w. unfold randint. destruct (hi <? lo); [reflexivity|].
  destruct (rand w); reflexivity.
Qed.

Lemma keeps_getitem {V} (d : gmap string V) k : keeps_self (getitem d k).
Proof. unfold getitem. destruct (d !! k); [apply keeps_ret | apply keeps_raise]. Qed.

Lemma keeps_getindex {V} (l : list V) i : keeps_self (getindex l i).
Proof. unfold getindex. destruct (l !! _); [apply keeps_ret | apply keeps_raise]. Qed.

Lemma keeps_api_call sc method kwargs : keeps_self (api_call sc method kwargs).
Proof. now intros w. Qed.

Lemma keeps_rtm_send_message c m : keeps_self (rtm_send_message c m).
Proof. now intros w. Qed.

Lemma keeps_as_strs v : keeps_self (as_strs v).
Proof. destruct v; first [apply keeps_ret | apply keeps_raise]. Qed.

Lemma keeps_forM_ {A} (l : list A) (f : A -> M unit) :
  (forall a, keeps_self (f a)) -> keeps_self (forM_ l f).
Proof.
  intros Hf. induction l as [|x l IH]; simpl; [apply keeps_ret|].
  apply keeps_bind; [apply Hf | intros _; exact IH].
Qed.

Create HintDb keeps discriminated.
#[local] Hint Resolve keeps_ret keeps_raise keeps_get_self keeps_emit keeps_log
  keeps_sleep keeps_randint keeps_getitem keeps_getindex keeps_api_call
  keeps_rtm_send_message keeps_as_strs : keeps.

(** Splits a goal [keeps_self m] along the binds, tests and handlers of [m]. *)
Ltac keeps_step :=
  match goal with
  | |- keeps_self (bind _ _) => apply keeps_bind; [|intros ?]
  | |- keeps_self (try_except _ _) => apply keeps_try_except; [|intros ? ? ?]
  | |- keeps_self (if ?b then _ else _) => destruct b
  | |- keeps_self (match ?x with _ => _ end) => destruct x
  | |- keeps_self (forM_ _ _) => apply keeps_forM_; intros ?
  | |- keeps_self _ => solve [auto with keeps]
  end.

(** ** Reading the event *)

Lemma field_ok (event : Event) e0 k v w :
  event !! 0%nat = Some e0 -> e0 !! k = Some v -> field event k w = (Ok v, w).
Proof.
  intros H0 Hk. unfold field, bind, getindex, getitem.
  change (Z.to_nat 0) with 0%nat. rewrite H0. unfold ret. now rewrite Hk.
Qed.

Lemma field_missing (event : Event) e0 k w :
  event !! 0%nat = Some e0 -> e0 !! k = None ->
  field event k w = (Raise (KeyError k), w).
Proof.
  intros H0 Hk. unfold field, bind, getindex, getitem.
  change (Z.to_nat 0) with 0%nat. rewrite H0. unfold ret. now rewrite Hk.
Qed.

Lemma keeps_field event k : keeps_self (field event k).
Proof. unfold field. repeat keeps_step. Qed.

Lemma api_call_eq sc method kwargs w :
  api_call sc method kwargs w
  = (Ok (api_answer sc (calls w) method kwargs),
     with_calls w (calls w ++ [ApiCall method kwargs])).
Proof. reflexivity. Qed.

Lemma log_eq l w : log l w = (Ok tt, with_logs w (logs w ++ [l])).
Proof. reflexivity. Qed.

Lemma get_self_eq w : get_self w = (Ok (self w), w).
Proof. reflexivity. Qed.

(** Runs the first computation of a bind with a known outcome [H]. *)
Ltac bind_with H :=
  first [ erewrite bind_ok by (exact H) | erewrite bind_raise by (exact H) ].

(** ** The scope classifier *)

Lemma get_msg_type_eq sc (event : Event) e0 c w :
  event !! 0%nat = Some e0 ->
  e0 !! "channel" = Some c ->
  let q1 := ApiCall "im.info" [("channel", c)] in
  let q2 := ApiCall "groups.info" [("channel", c)] in
  get_msg_type sc event w =
    if reports_failure (api_answer sc (calls w) "im.info" [("channel", c)]) then
      (Ok (if reports_failure
                (api_answer sc (calls w ++ [q1]) "groups.info" [("channel", c)])
           then "Public" else "Private"),
       with_calls w (calls w ++ [q1; q2]))
    else (Ok "IM", with_calls w (calls w ++ [q1])).
Proof.
  intros H0 Hc q1 q2. unfold get_msg_type.
  bind_with (field_ok _ _ _ _ w H0 Hc).
  bind_with (api_call_eq sc "im.info" [("channel", c)] w).
  destruct (reports_failure _); [|reflexivity].
  bind_with (field_ok _ _ _ _ (with_calls w (calls w ++ [q1])) H0 Hc).
  bind_with (api_call_eq sc "groups.info" [("channel", c)]
               (with_calls w (calls w ++ [q1]))).
  unfold with_calls at 2 3. simpl. rewrite <- app_assoc. simpl.
  destruct (reports_failure _); reflexivity.
Qed.

Lemma keeps_get_msg_type sc event : keeps_self (get_msg_type sc event).
Proof. unfold get_msg_type. repeat keeps_step; apply keeps_field. Qed.

(** C2. For an event that carries a channel id, [get_msg_type] first asks
    [im.info] and answers ['IM'] unless that answer reports failure; only
    then it asks [groups.info] and answers ['Private'] unless that one
    reports failure too; it answers ['Public'] exactly when both do. Those
    are the only outcomes and the only queries. *)
Theorem get_msg_type_fallback sc (event : Event) e0 c w :
  event !! 0%nat = Some e0 ->
  e0 !! "channel" = Some c ->
  let q1 := ApiCall "im.info" [("channel", c)] in
  let q2 := ApiCall "groups.info" [("channel", c)] in
  let im_info := api_answer sc (calls w) "im.info" [("channel", c)] in
  let dm_info := api_answer sc (calls w ++ [q1]) "groups.info" [("channel", c)] in
  (reports_failure im_info = false /\
   get_msg_type sc event w = (Ok "IM", with_calls w (calls w ++ [q1])))
  \/ (reports_failure im_info = true /\ reports_failure dm_info = false /\
      get_msg_type sc event w = (Ok "Private", with_calls w (calls w ++ [q1; q2])))
  \/ (reports_failure im_info = true /\ reports_failure dm_info = true /\
      get_msg_type sc event w = (Ok "Public", with_calls w (calls w ++ [q1; q2]))).
Proof.
  intros H0 Hc q1 q2 im_info dm_info.
  rewrite (get_msg_type_eq sc event e0 c w H0 Hc). cbv zeta.
  fold q1 q2. fold im_info. fold dm_info.
  destruct (reports_failure im_info); [right | left; split; reflexivity].
  destruct (reports_failure dm_info); [right | left]; repeat split; reflexivity.
Qed.

(** ** The run-level gate *)

Lemma in_scope_iff (r s : string) :
  in_scope r s = true
  <-> (r = "DM Only" /\ s = "IM") \/ (r = "Private" /\ s <> "Public") \/ r = "All".
Proof.
  unfold in_scope.
  rewrite !orb_true_iff, !andb_true_iff, negb_true_iff,
    !String.eqb_eq, String.eqb_neq.
  clear. tauto.
Qed.

Lemma dispatch_eq sc (event : Event) all_users w s w1 :
  get_msg_type sc event w = (Ok s, w1) ->
  dispatch sc event all_users w
  = if in_scope (run_level (self w)) s
    then run_behaviors sc event s all_users (with_logs w1 (logs w1 ++ [Debug s]))
    else (Ok tt, with_logs w1 (logs w1 ++ [Debug s; Debug "Message not in scope."])).
Proof.
  intros Hs.
  assert (Hself : self w1 = self w)
    by (pose proof (keeps_get_msg_type sc event w) as K; now rewrite Hs in K).
  unfold dispatch. bind_with Hs. bind_with (log_eq (Debug s) w1).
  bind_with (get_self_eq (with_logs w1 (logs w1 ++ [Debug s]))).
  change (self (with_logs w1 (logs w1 ++ [Debug s]))) with (self w1).
  rewrite Hself. destruct (in_scope _ s); [reflexivity|].
  rewrite log_eq. unfold with_logs. simpl. now rewrite <- app_assoc.
Qed.

(** ** Behaviours that search the text *)

Section TextSearch.

(** What the behaviours rely on of [find_element_in_string]: it answers -1
    exactly for a string that does not occur in the text. *)
Hypothesis find_element_in_string_spec :
  forall text s, find_element_in_string text s <> -1 <-> PyStr.contains s text.

Lemma found_true_iff text s :
  negb (find_element_in_string text s =? -1) = true <-> PyStr.contains s text.
Proof using find_element_in_string_spec.
  rewrite negb_true_iff, Z.eqb_neq. apply find_element_in_string_spec.
Qed.

Lemma missed_true_iff text s :
  (find_element_in_string text s =? -1) = true <-> ~ PyStr.contains s text.
Proof using find_element_in_string_spec.
  rewrite Z.eqb_eq, <- find_element_in_string_spec.
  destruct (Z.eq_dec (find_element_in_string text s) (-1)) as [e|n];
    [clear -e | clear -n]; tauto.
Qed.

(** C6. On a 'message' event with a text, a channel and a timestamp,
    [mark_read] issues a mark call if and only if the text contains a '<'
    and a '>' and does not contain the bot's user name. The call is
    [im.mark] in scope 'IM', [groups.mark] in scope 'Private' and
    [channels.mark] in any other scope, with the event's channel and
    timestamp; when the test fails nothing is called. *)
Theorem mark_read_heuristic sc (event : Event) e0 text c ts msg_type w :
  event !! 0%nat = Some e0 ->
  e0 !! "type" = Some "message" ->
  e0 !! "text" = Some text ->
  e0 !! "channel" = Some c ->
  e0 !! "ts" = Some ts ->
  let heuristic :=
    PyStr.contains "<" text /\ PyStr.contains ">" text
    /\ ~ PyStr.contains (server_username sc) text in
  let method :=
    if String.eqb msg_type "IM" then "im.mark"
    else if String.eqb msg_type "Private" then "groups.mark"
    else "channels.mark" in
  (heuristic ->
   mark_read sc event msg_type w
   = (Ok tt, with_calls w (calls w ++ [ApiCall method [("channel", c); ("ts", ts)]])))
  /\ (~ heuristic ->
      mark_read sc event msg_type w
      = (Ok tt, with_logs w (logs w ++ [Debug "Don't change"]))).
Proof using find_element_in_string_spec.
  intros H0 Hty Htx Hc Hts heuristic method.
  remember (negb (find_element_in_string text "<" =? -1)
            && negb (find_element_in_string text ">" =? -1)
            && (find_element_in_string text (server_username sc) =? -1))
    as test eqn:Etest.
  assert (Htest : test = true <-> heuristic).
  { rewrite Etest. unfold heuristic.
    rewrite !andb_true_iff, !found_true_iff, missed_true_iff. clear. tauto. }
  assert (Hrun : mark_read sc event msg_type w
                 = if test
                   then (Ok tt, with_calls w
                           (calls w ++ [ApiCall method [("channel", c); ("ts", ts)]]))
                   else (Ok tt, with_logs w (logs w ++ [Debug "Don't change"]))).
  { unfold mark_read.
    destruct test; apply try_except_ok;
      bind_with (field_ok _ _ _ _ w H0 Hty);
      change (String.eqb "message" "message") with true; cbv iota;
      bind_with (field_ok _ _ _ _ w H0 Htx);
      rewrite <- Etest; [|reflexivity].
    unfold method.
    destruct (String.eqb msg_type "IM"); [|destruct (String.eqb msg_type "Private")];
      bind_with (field_ok _ _ _ _ w H0 Hc);
      bind_with (field_ok _ _ _ _ w H0 Hts);
      reflexivity. }
  rewrite Hrun. split; intros Hh.
  - apply Htest in Hh. now rewrite Hh.
  - destruct test; [|reflexivity]. exfalso. apply Hh, Htest. reflexivity.
Qed.

Lemma named_in_iff text user :
  named_in text user = true
  <-> PyStr.contains
        (lower (first_name user) +:+ " " +:+ lower (last_name user))
        (lower text).
Proof using find_element_in_string_spec. unfold named_in. apply found_true_iff. Qed.

Lemma members_of_ok (convo_members : Response) members w :
  convo_members !! "members" = Some (PStrs members) ->
  members_of convo_members w = (Ok members, w).
Proof.
  intros H. unfold members_of, getitem. rewrite H. reflexivity.
Qed.

Lemma some_user_not_in_convo_ok (convo_members : Response) members ids found w :
  convo_members !! "members" = Some (PStrs members) ->
  some_user_not_in_convo convo_members ids found w
  = (Ok (found || existsb (fun u => bool_decide (u ∉ members)) ids), w).
Proof.
  intros H. revert found. induction ids as [|u ids IH]; intros found; simpl.
  - now rewrite orb_false_r.
  - bind_with (members_of_ok convo_members members w H).
    rewrite IH. destruct (bool_decide (u ∉ members)), found; reflexivity.
Qed.

Lemma absent_mentioned_iff text (all_users : list User) (members : list string) :
  existsb (fun u => bool_decide (u ∉ members))
    (map id (List.filter (named_in text) all_users)) = true
  <-> exists user, In user all_users /\ named_in text user = true
                   /\ ~ In (id user) members.
Proof.
  rewrite existsb_exists. split.
  - intros (u & Hin & Hu). apply in_map_iff in Hin as (user & <- & Hf).
    apply filter_In in Hf as [Hall Hn]. apply bool_decide_eq_true in Hu.
    rewrite list_elem_of_In in Hu. exists user. auto.
  - intros (user & Hall & Hn & Hm). exists (id user). split.
    + apply in_map, filter_In. auto.
    + apply bool_decide_eq_true. now rewrite list_elem_of_In.
Qed.

(** C7, as the code has it. On a 'message' event with a text and a
    channel, in a scope other than 'Public': if some user of the directory
    whose lower-cased "first last" name occurs in the lower-cased text has
    an id that is not among the members of the channel, then
    [someones_talking_about_you] sends exactly one message, to the notify
    channel, when the event names its sender, and raises [KeyError] for
    'user' after asking for the members, with nothing sent, when it does
    not. When every such user is a member, or no name occurs, it sends
    nothing. *)
Theorem talking_notifies_absent sc (event : Event) e0 text c
    (sender : option string) msg_type (all_users : list User)
    (members : list string) w :
  event !! 0%nat = Some e0 ->
  e0 !! "type" = Some "message" ->
  e0 !! "text" = Some text ->
  e0 !! "channel" = Some c ->
  e0 !! "user" = sender ->
  msg_type <> "Public" ->
  api_answer sc (calls w) "conversations.members" [("channel", c)] !! "members"
    = Some (PStrs members) ->
  let asked := ApiCall "conversations.members" [("channel", c)] in
  let mentioned user :=
    PyStr.contains
      (lower (first_name user) +:+ " " +:+ lower (last_name user))
      (lower text) in
  let absent_mentioned :=
    exists user, In user all_users /\ mentioned user /\ ~ In (id user) members in
  let user_ids := map id (List.filter (named_in text) all_users) in
  (absent_mentioned ->
   someones_talking_about_you sc event msg_type all_users w
   = match sender with
     | Some from =>
         (Ok tt,
          with_calls w
            (calls w ++ [asked;
                         SendMessage (stay_channel (self w))
                           (talking_message user_ids members from text)]))
     | None => (Raise (KeyError "user"), with_calls w (calls w ++ [asked]))
     end)
  /\ (~ absent_mentioned ->
      someones_talking_about_you sc event msg_type all_users w = (Ok tt, w)
      \/ someones_talking_about_you sc event msg_type all_users w
         = (Ok tt, with_calls w (calls w ++ [asked]))).
Proof using find_element_in_string_spec.
  intros H0 Hty Htx Hc Hu Hpub Hmem asked mentioned absent_mentioned user_ids.
  unfold user_ids. clear user_ids.
  remember (List.filter (named_in text) all_users) as matched eqn:Ematched.
  set (w1 := with_calls w (calls w ++ [asked])).
  remember (existsb (fun u => bool_decide (u ∉ members)) (map id matched))
    as absent eqn:Eabsent.
  assert (Habsent : absent = true <-> absent_mentioned).
  { rewrite Eabsent, Ematched. unfold absent_mentioned, mentioned.
    rewrite absent_mentioned_iff.
    split; intros (user & Ha & Hn & Hm); exists user; repeat split; auto;
      now apply named_in_iff. }
  assert (Hgate : String.eqb "message" "message"
                  && negb (String.eqb msg_type "Public") = true).
  { apply andb_true_iff. split; [reflexivity|].
    now apply negb_true_iff, String.eqb_neq. }
  (* up to the test of [not_all_users_in_convo], for a non-empty match *)
  assert (Hbody : forall u0 rest (k : M unit),
            matched = u0 :: rest ->
            (type <- field event "type" ;;
             if String.eqb type "message" && negb (String.eqb msg_type "Public") then
               text <- field event "text" ;;
               let users_to_notify := List.filter (named_in text) all_users in
               if (0 <? Z.of_nat (length users_to_notify)) then
                 let user_ids := map id users_to_notify in
                 channel <- field event "channel" ;;
                 convo_members <-
                   api_call sc "conversations.members" [("channel", channel)] ;;
                 not_all_users_in_convo <-
                   some_user_not_in_convo convo_members user_ids false ;;
                 if not_all_users_in_convo : bool then
                   members <- members_of convo_members ;;
                   sender <- field event "user" ;;
                   h <- get_self ;;
                   rtm_send_message (stay_channel h)
                     (talking_message user_ids members sender text)
                 else ret tt
               else ret tt
             else ret tt) w
            = if absent
              then (sender <- field event "user" ;;
                    h <- get_self ;;
                    rtm_send_message (stay_channel h)
                      (talking_message (map id matched) members sender text)) w1
              else (Ok tt, w1)).
  { intros u0 rest k Ecase. clear Habsent.
    destruct matched as [|u0' rest']; [discriminate|]. clear Ecase.
    bind_with (field_ok _ _ _ _ w H0 Hty). rewrite Hgate.
    bind_with (field_ok _ _ _ _ w H0 Htx). rewrite <- Ematched.
    cbv zeta.
    change (0 <? Z.of_nat (length (u0' :: rest'))) with true. cbv iota.
    bind_with (field_ok _ _ _ _ w H0 Hc).
    bind_with (api_call_eq sc "conversations.members" [("channel", c)] w).
    fold asked. fold w1.
    bind_with (some_user_not_in_convo_ok _ members (map id (u0' :: rest'))
                 false w1 Hmem).
    rewrite orb_false_l, <- Eabsent.
    destruct absent; [|reflexivity].
    bind_with (members_of_ok _ members w1 Hmem). reflexivity. }
  assert (Hrun : someones_talking_about_you sc event msg_type all_users w
                 = match matched with
                   | [] => (Ok tt, w)
                   | _ =>
                       if absent then
                         match sender with
                         | Some from =>
                             (Ok tt,
                              with_calls w
                                (calls w ++ [asked;
                                   SendMessage (stay_channel (self w))
                                     (talking_message (map id matched) members
                                        from text)]))
                         | None => (Raise (KeyError "user"), w1)
                         end
                       else (Ok tt, w1)
                   end).
  { unfold someones_talking_about_you.
    destruct matched as [|u0 rest] eqn:Ecase.
    - apply try_except_ok.
      bind_with (field_ok _ _ _ _ w H0 Hty). rewrite Hgate.
      bind_with (field_ok _ _ _ _ w H0 Htx). rewrite <- Ematched. reflexivity.
    - destruct absent.
      + destruct sender as [from|].
        * apply try_except_ok.
          etransitivity; [exact (Hbody u0 rest (ret tt) eq_refl)|].
          bind_with (field_ok _ _ _ _ w1 H0 Hu).
          bind_with (get_self_eq w1).
          unfold rtm_send_message, emit, w1, with_calls. simpl.
          now rewrite <- app_assoc.
        * rewrite (try_except_raise _ _ w (KeyError "user") w1).
          2:{ etransitivity; [exact (Hbody u0 rest (ret tt) eq_refl)|].
              bind_with (field_missing _ _ _ w1 H0 Hu). reflexivity. }
          cbn [ignore_untyped]. unfold bind, getindex.
          change (Z.to_nat 0) with 0%nat. rewrite H0. unfold ret.
          rewrite bool_decide_eq_false_2 by (rewrite Hty; discriminate).
          reflexivity.
      + apply try_except_ok. exact (Hbody u0 rest (ret tt) eq_refl). }
  rewrite Hrun. split; intros Hh.
  - apply Habsent in Hh. rewrite Hh. destruct matched as [|u0 rest].
    + rewrite Eabsent in Hh. discriminate.
    + destruct sender; reflexivity.
  - destruct matched; [now left|].
    destruct absent; [|now right]. exfalso. apply Hh, Habsent. reflexivity.
Qed.

End TextSearch.

(** ** The reply pool *)

Lemma set_self_eq h w :
  set_self h w = (Ok tt, {| self := h; calls := calls w; logs := logs w;
                            rand := rand w; slept := slept w |}).
Proof. reflexivity. Qed.

(** A [str] that is already in the pool is refused as an unhandled type,
    after the error is logged. *)
Lemma add_responses_present_raises w s :
  s ∈ responses (self w) ->
  exists message,
    add_responses (NRStr s) w
    = (Raise (TypeNotHandledException message),
       with_logs w (logs w ++ [Error message])).
Proof.
  intros Hin. eexists. unfold add_responses.
  erewrite try_except_raise.
  2:{ bind_with (get_self_eq w). rewrite bool_decide_eq_false_2 by (intros Hn; exact (Hn Hin)).
      reflexivity. }
  reflexivity.
Qed.

(** C8. [add_responses] with a string that is already in the pool leaves
    the pool as it is, and [add_responses] with a list makes the pool hold,
    without repetition, exactly the strings of the old pool and of the
    list. *)
Theorem add_responses_pool w (s : string) (l : list string) :
  In s (responses (self w)) ->
  responses (self (snd (add_responses (NRStr s) w))) = responses (self w)
  /\ fst (add_responses (NRList l) w) = Ok tt
  /\ NoDup (responses (self (snd (add_responses (NRList l) w))))
  /\ (forall x, In x (responses (self (snd (add_responses (NRList l) w))))
                <-> In x (responses (self w)) \/ In x l).
Proof.
  intros Hin. apply list_elem_of_In in Hin. split.
  - destruct (add_responses_present_raises w s Hin) as [message ->]. reflexivity.
  - assert (Hrun : add_responses (NRList l) w
                   = (Ok tt, {| self := with_responses (self w)
                                          (list_of_set (responses (self w) ++ l));
                                calls := calls w; logs := logs w;
                                rand := rand w; slept := slept w |}))
      by reflexivity.
    rewrite Hrun. simpl. unfold list_of_set. split; [reflexivity|]. split.
    + apply NoDup_elements.
    + intros x. rewrite <- !list_elem_of_In, elem_of_elements, elem_of_list_to_set.
      apply elem_of_app.
Qed.

(** ** Flags and the homophone table *)

Lemma update_flag_recognized w flag_name old flag_value :
  handler_flags (self w) !! flag_name = Some old ->
  update_flag flag_name flag_value w
  = (Ok tt,
     {| self :=
          with_homophones
            (with_handler_flags (self w)
               (<[flag_name := flag_value]> (handler_flags (self w))))
            (if String.eqb flag_name "homophone_flg" && flag_value
             then Some (load_homophones None) else None);
        calls := calls w; logs := logs w; rand := rand w; slept := slept w |}).
Proof.
  intros Hold. unfold update_flag. apply try_except_ok.
  bind_with (get_self_eq w).
  rewrite bool_decide_eq_false_2 by congruence.
  unfold bind, ret, set_self, get_self. simpl.
  destruct (String.eqb flag_name "homophone_flg" && flag_value); reflexivity.
Qed.

(** X1. An unrecognised flag name is refused: [update_flag] logs the
    message as an error and raises [InvalidFlagNameException]; the handler
    stays as it was and nothing is sent. *)
Lemma update_flag_unrecognized w flag_name flag_value :
  handler_flags (self w) !! flag_name = None ->
  exists message,
    update_flag flag_name flag_value w
    = (Raise (InvalidFlagNameException message),
       with_logs w (logs w ++ [Error message])).
Proof.
  intros Hnone. eexists. unfold update_flag.
  erewrite try_except_raise.
  2:{ bind_with (get_self_eq w). rewrite bool_decide_eq_true_2 by exact Hnone.
      reflexivity. }
  reflexivity.
Qed.

(** [__init__] gives the handler a table exactly when [homophone_flg] is
    set, and an allow-list only when one is passed. *)
Lemma init_table_and_users token f1 f2 f3 f4 f5 f6 homophone_flg level users_arg
    responses_arg channel init_homophones w :
  users_arg <> UsersAll ->
  let w' := snd (init token f1 f2 f3 f4 f5 f6 homophone_flg level users_arg
                   responses_arg channel init_homophones w) in
  homophones (self w')
  = (if homophone_flg then Some (load_homophones init_homophones) else None)
  /\ handler_flags (self w') !! "homophone_flg" = Some homophone_flg
  /\ users (self w')
     = match users_arg with UsersList l => Some l | _ => None end.
Proof.
  intros Hall w'. unfold w', init.
  destruct users_arg as [| |l]; [|congruence|]; repeat split.
Qed.

(** C4. What [update_flag] does to the homophone table, for a recognised
    flag name: with ['homophone_flg'] and a true value the table is loaded
    anew, with ['homophone_flg'] and a false value it is cleared, and with
    any other flag name it is cleared as well, whatever it held. *)
Theorem update_flag_homophones w flag_name old flag_value :
  handler_flags (self w) !! flag_name = Some old ->
  fst (update_flag flag_name flag_value w) = Ok tt
  /\ (flag_name = "homophone_flg" -> flag_value = true ->
      homophones (self (snd (update_flag flag_name flag_value w)))
      = Some (load_homophones None))
  /\ (flag_name = "homophone_flg" -> flag_value = false ->
      homophones (self (snd (update_flag flag_name flag_value w))) = None)
  /\ (flag_name <> "homophone_flg" ->
      homophones (self (snd (update_flag flag_name flag_value w))) = None).
Proof.
  intros Hold. rewrite (update_flag_recognized w flag_name old flag_value Hold).
  simpl. repeat split.
  - intros -> ->. reflexivity.
  - intros -> ->. reflexivity.
  - intros Hne. apply String.eqb_neq in Hne. now rewrite Hne.
Qed.

(** ** Connecting *)

Lemma rtm_connect_eq sc w :
  rtm_connect sc w
  = (match rtm_connect_result sc with
     | Ok b => Ok b
     | Raise e => Raise e
     end, with_calls w (calls w ++ [RtmConnect])).
Proof.
  unfold rtm_connect, bind, emit. destruct (rtm_connect_result sc); reflexivity.
Qed.

(** C5, as the code has it. When the first connection does not succeed,
    [begin] never enters the event loop and asks nothing more of the
    client. If [rtm_connect] answers false, [begin] returns normally and
    logs nothing: the caller is not told. Only if [rtm_connect] itself
    raises does the exception reach the caller. *)
Theorem begin_connection_failure length w outcome :
  rtm_connect_result (new_SlackClient (slack_token (self w))) = outcome ->
  outcome <> Ok true ->
  begin length w
  = match outcome with
    | Ok _ => (Ok tt, with_calls w (calls w ++ [RtmConnect]))
    | Raise KeyboardInterrupt =>
        (Raise KeyboardInterrupt,
         with_logs (with_calls w (calls w ++ [RtmConnect]))
           (logs w ++ [Debug "Stopping Slack monitor."]))
    | Raise e => (Raise e, with_calls w (calls w ++ [RtmConnect]))
    end.
Proof.
  intros Hout Hfail. unfold begin.
  bind_with (get_self_eq w).
  destruct outcome as [[|]|e]; [congruence| |].
  - apply try_except_ok.
    erewrite bind_ok by (rewrite rtm_connect_eq, Hout; reflexivity).
    reflexivity.
  - erewrite try_except_raise.
    2:{ erewrite bind_raise by (rewrite rtm_connect_eq, Hout; reflexivity).
        reflexivity. }
    destruct e; reflexivity.
Qed.

(** ** Behaviours leave the handler as it is *)

Lemma keeps_flag name : keeps_self (flag name).
Proof. unfold flag. repeat keeps_step. Qed.

Lemma keeps_in_users user : keeps_self (in_users user).
Proof. unfold in_users. repeat keeps_step. Qed.

Lemma keeps_message_from_listed_user event :
  keeps_self (message_from_listed_user event).
Proof.
  unfold message_from_listed_user.
  repeat keeps_step; first [apply keeps_field | apply keeps_in_users].
Qed.

Lemma keeps_ignore_untyped event e k :
  ignore_untyped event e = Some k -> keeps_self k.
Proof.
  destruct e; simpl; try discriminate. intros [= <-]. repeat keeps_step.
Qed.

Lemma keeps_members_of r : keeps_self (members_of r).
Proof. unfold members_of. repeat keeps_step. Qed.

Lemma keeps_some_user_not_in_convo r ids found :
  keeps_self (some_user_not_in_convo r ids found).
Proof.
  revert found. induction ids as [|u ids IH]; intros found; simpl.
  - apply keeps_ret.
  - apply keeps_bind; [apply keeps_members_of | intros ?; apply IH].
Qed.

#[local] Hint Resolve keeps_field keeps_flag keeps_in_users
  keeps_message_from_listed_user keeps_members_of
  keeps_some_user_not_in_convo : keeps.

Lemma keeps_random_reply sc event : keeps_self (random_reply sc event).
Proof.
  unfold random_reply. apply keeps_try_except; [|apply keeps_ignore_untyped].
  repeat keeps_step.
Qed.

Lemma keeps_mark_read sc event msg_type : keeps_self (mark_read sc event msg_type).
Proof.
  unfold mark_read. apply keeps_try_except; [|apply keeps_ignore_untyped].
  repeat keeps_step.
Qed.

Lemma keeps_someones_talking_about_you sc event msg_type all_users :
  keeps_self (someones_talking_about_you sc event msg_type all_users).
Proof.
  unfold someones_talking_about_you.
  apply keeps_try_except; [|apply keeps_ignore_untyped].
  repeat keeps_step.
Qed.

Lemma keeps_magic_eight sc event : keeps_self (magic_eight sc event).
Proof.
  unfold magic_eight. apply keeps_try_except; [|apply keeps_ignore_untyped].
  repeat keeps_step.
Qed.

Lemma keeps_guarded name m : keeps_self m -> keeps_self (guarded name m).
Proof. intros Hm. unfold guarded. repeat keeps_step. Qed.

Lemma keeps_mapM {A B} (f : A -> M B) l :
  (forall a, keeps_self (f a)) -> keeps_self (mapM f l).
Proof.
  intros Hf. induction l as [|x l IH]; simpl; [apply keeps_ret|].
  apply keeps_bind; [apply Hf|]. intros ?.
  apply keeps_bind; [apply IH|]. intros ?. apply keeps_ret.
Qed.

Lemma keeps_load_directory sc : keeps_self (load_directory sc).
Proof.
  unfold load_directory, directory, as_users. repeat keeps_step.
  apply keeps_mapM. intros user. unfold directory_entry. repeat keeps_step.
Qed.

(** The outcome of a computation that keeps [self], read off an equation. *)
Lemma keeps_self_of {A} (m : M A) w r w' :
  keeps_self m -> m w = (r, w') -> self w' = self w.
Proof. intros K H. specialize (K w). now rewrite H in K. Qed.

(** ** Missing fields *)

(** The [except KeyError] clause of a behaviour, on an event without a
    ['type']: the error is logged and the behaviour returns. *)
Lemma ignore_untyped_absorbs (m : M unit) (event : Event) e0 k w w' :
  event !! 0%nat = Some e0 ->
  e0 !! "type" = None ->
  m w = (Raise (KeyError k), w') ->
  try_except m (ignore_untyped event) w
  = (Ok tt, with_logs w' (logs w' ++ [Debug "Don't worry about this one.";
                                      DebugEvent event])).
Proof.
  intros H0 Hty Hm. rewrite (try_except_raise _ _ _ _ _ Hm). simpl.
  unfold bind, getindex. change (Z.to_nat 0) with 0%nat. rewrite H0.
  unfold ret. rewrite bool_decide_eq_true_2 by exact Hty.
  rewrite !log_eq. unfold with_logs. simpl. now rewrite <- app_assoc.
Qed.

(** The same clause on an event with a ['type']: every error goes on to
    the caller. *)
Lemma ignore_untyped_reraises (m : M unit) (event : Event) e0 w :
  event !! 0%nat = Some e0 ->
  is_Some (e0 !! "type") ->
  try_except m (ignore_untyped event) w = m w.
Proof.
  intros H0 [ty Hty]. unfold try_except.
  destruct (m w) as [[[]|e] w']; [reflexivity|].
  destruct e; try reflexivity. simpl.
  unfold bind, getindex. change (Z.to_nat 0) with 0%nat. rewrite H0.
  unfold ret. rewrite bool_decide_eq_false_2 by congruence. reflexivity.
Qed.

Lemma ignore_untyped_no_KeyError (m : M unit) (event : Event) e0 k w :
  event !! 0%nat = Some e0 ->
  e0 !! "type" = None ->
  fst (try_except m (ignore_untyped event) w) <> Raise (KeyError k).
Proof.
  intros H0 Hty. destruct (m w) as [[[]|e] w'] eqn:Hm.
  - rewrite (try_except_ok _ _ _ _ _ Hm). discriminate.
  - destruct e;
      try (rewrite (try_except_raise _ _ _ _ _ Hm); simpl; discriminate).
    rewrite (ignore_untyped_absorbs m event e0 key w w' H0 Hty Hm). discriminate.
Qed.

Lemma message_from_listed_user_untyped (event : Event) e0 w :
  event !! 0%nat = Some e0 ->
  e0 !! "type" = None ->
  message_from_listed_user event w = (Raise (KeyError "type"), w).
Proof.
  intros H0 Hty. unfold message_from_listed_user.
  destruct event as [|e event]; [discriminate|].
  bind_with (field_missing _ _ _ w H0 Hty). reflexivity.
Qed.

(** ** One turn of the loop *)

Lemma handle_event_eq sc (event : Event) e0 all_users w :
  event !! 0%nat = Some e0 ->
  handle_event sc event all_users w
  = match dispatch sc event all_users (with_logs w (logs w ++ [DebugEvent event])) with
    | (Ok _, w') => sleep w'
    | (Raise (KeyError k), w') =>
        (Ok tt, with_logs w' (logs w' ++ [DebugIgnored event]))
    | (Raise e, w') => (Raise e, w')
    end.
Proof.
  intros H0. destruct event as [|e event]; [discriminate|].
  unfold handle_event, try_except.
  rewrite bind_assoc. bind_with (log_eq (DebugEvent (e :: event)) w).
  unfold bind at 1.
  destruct (dispatch _ _ _ _) as [[[]|x] w']; [reflexivity|].
  destruct x; reflexivity.
Qed.

Lemma event_loop_step sc all_users start length tk rest (event : Event) w :
  tk_connected tk = true ->
  (tk_time tk <=? start + length) || (length =? -1) = true ->
  tk_read tk = Ok event ->
  event_loop sc all_users start length (tk :: rest) w
  = match handle_event sc event all_users w with
    | (Ok _, w') => event_loop sc all_users start length rest w'
    | (Raise e, w') => (Raise e, w')
    end.
Proof.
  intros Hc Ht Hr. cbn [event_loop]. rewrite Hc, Ht, Hr. reflexivity.
Qed.

(** [begin] once the client is connected and the directory is read. *)
Lemma begin_raises length w all_users w1 e w2 :
  let sc := new_SlackClient (slack_token (self w)) in
  rtm_connect_result sc = Ok true ->
  load_directory sc (with_calls w (calls w ++ [RtmConnect])) = (Ok all_users, w1) ->
  event_loop sc all_users (time_start sc) length (rtm_ticks sc) w1 = (Raise e, w2) ->
  e <> KeyboardInterrupt ->
  begin length w = (Raise e, w2).
Proof.
  intros sc Hconn Hdir Hloop Hne. unfold begin.
  bind_with (get_self_eq w). fold sc.
  erewrite try_except_raise.
  2:{ erewrite bind_ok by (rewrite rtm_connect_eq, Hconn; reflexivity).
      cbv iota. bind_with Hdir. bind_with Hloop. reflexivity. }
  destruct e; try reflexivity. congruence.
Qed.

(** C3, as the code has it. A [KeyError] for a missing event field never
    ends the loop. On an event without a ['type'] field each behaviour
    catches the error itself, logs it and returns, so the behaviours after
    it still run. Any [KeyError] that leaves the dispatch of an event (a
    behaviour re-raises it when the event has a ['type'] field) is caught
    by the loop, which logs the event as ignored and goes on with the next
    turn; the behaviours that had not yet run for that event are skipped. *)
Theorem missing_field_handling sc (event : Event) e0 all_users start length
    tk rest w :
  event !! 0%nat = Some e0 ->
  tk_connected tk = true ->
  (tk_time tk <=? start + length) || (length =? -1) = true ->
  tk_read tk = Ok event ->
  let absorbed :=
    with_logs w (logs w ++ [Debug "Don't worry about this one."; DebugEvent event]) in
  (e0 !! "type" = None ->
   random_reply sc event w = (Ok tt, absorbed)
   /\ (forall s, mark_read sc event s w = (Ok tt, absorbed))
   /\ (forall s, someones_talking_about_you sc event s all_users w = (Ok tt, absorbed))
   /\ magic_eight sc event w = (Ok tt, absorbed)
   /\ (forall k, fst (homophone_suggest sc event w) <> Raise (KeyError k)))
  /\ (forall k w',
        dispatch sc event all_users (with_logs w (logs w ++ [DebugEvent event]))
        = (Raise (KeyError k), w') ->
        handle_event sc event all_users w
        = (Ok tt, with_logs w' (logs w' ++ [DebugIgnored event]))
        /\ event_loop sc all_users start length (tk :: rest) w
           = event_loop sc all_users start length rest
               (with_logs w' (logs w' ++ [DebugIgnored event]))).
Proof.
  intros H0 Hc Ht Hr absorbed. split.
  - intros Hty.
    pose proof (message_from_listed_user_untyped event e0 w H0 Hty) as Hm.
    pose proof (field_missing event e0 "type" w H0 Hty) as Hf.
    repeat split.
    + unfold random_reply.
      apply (ignore_untyped_absorbs _ event e0 "type" w w H0 Hty).
      bind_with Hm. reflexivity.
    + intros s. unfold mark_read.
      apply (ignore_untyped_absorbs _ event e0 "type" w w H0 Hty).
      bind_with Hf. reflexivity.
    + intros s. unfold someones_talking_about_you.
      apply (ignore_untyped_absorbs _ event e0 "type" w w H0 Hty).
      bind_with Hf. reflexivity.
    + unfold magic_eight.
      apply (ignore_untyped_absorbs _ event e0 "type" w w H0 Hty).
      bind_with Hm. reflexivity.
    + intros k. unfold homophone_suggest.
      apply (ignore_untyped_no_KeyError _ event e0 k w H0 Hty).
  - intros k w' Hd.
    assert (Hh : handle_event sc event all_users w
                 = (Ok tt, with_logs w' (logs w' ++ [DebugIgnored event])))
      by (rewrite (handle_event_eq sc event e0 all_users w H0), Hd; reflexivity).
    split; [exact Hh|].
    rewrite (event_loop_step sc all_users start length tk rest event w Hc Ht Hr).
    now rewrite Hh.
Qed.

(** ** Crashes *)

Lemma guarded_on name (m : M unit) w :
  handler_flags (self w) !! name = Some true -> guarded name m w = m w.
Proof.
  intros H. unfold guarded, flag. rewrite bind_assoc.
  bind_with (get_self_eq w). unfold bind, getitem. rewrite H. reflexivity.
Qed.

Lemma guarded_off name (m : M unit) w :
  handler_flags (self w) !! name = Some false -> guarded name m w = (Ok tt, w).
Proof.
  intros H. unfold guarded, flag. rewrite bind_assoc.
  bind_with (get_self_eq w). unfold bind, getitem. rewrite H. reflexivity.
Qed.

Lemma guarded_eq name (b : bool) (m : M unit) w :
  handler_flags (self w) !! name = Some b ->
  guarded name m w = (if b then m else ret tt) w.
Proof.
  intros H. destruct b; [now apply guarded_on | now apply guarded_off].
Qed.

(** A guarded call followed by others, when the flag has the value [b] and
    what follows only depends on the world through what the call leaves. *)
Lemma guarded_then name (b : bool) (m rest rest' : M unit) w :
  handler_flags (self w) !! name = Some b ->
  keeps_self m ->
  (forall w', self w' = self w -> rest w' = rest' w') ->
  (guarded name m ;;; rest) w = ((if b then m else ret tt) ;;; rest') w.
Proof.
  intros Hb Hm Hrest. unfold bind. rewrite (guarded_eq name b m w Hb).
  assert (K : self (snd ((if b then m else ret tt) w)) = self w)
    by (destruct b; [apply Hm | reflexivity]).
  destruct ((if b then m else ret tt) w) as [[[]|e] w']; [|reflexivity].
  now apply Hrest.
Qed.

(** C1. Once the scope [s] of an event is resolved, [dispatch] invokes the
    enabled behaviours exactly when the run level [r] admits [s]: when [r]
    is ['DM Only'] and [s] is ['IM'], or [r] is ['Private'] and [s] is not
    ['Public'], or [r] is ['All']. In that case it runs, in this order and
    each only if its flag is set, [random_reply], [mark_read],
    [someones_talking_about_you], [magic_eight] and [homophone_suggest],
    and nothing else. Otherwise it only logs that the message is out of
    scope: no behaviour runs and no call is made. *)
Theorem dispatch_gating sc (event : Event) all_users w s w1
    (reply mark talk eight suggest : bool) :
  get_msg_type sc event w = (Ok s, w1) ->
  let r := run_level (self w) in
  let allowed :=
    (r = "DM Only" /\ s = "IM") \/ (r = "Private" /\ s <> "Public") \/ r = "All" in
  (allowed ->
   handler_flags (self w) !! "random_reply_flg" = Some reply ->
   handler_flags (self w) !! "mark_read_flg" = Some mark ->
   handler_flags (self w) !! "someones_talking_about_you_flg" = Some talk ->
   handler_flags (self w) !! "magic_eight_flg" = Some eight ->
   handler_flags (self w) !! "homophone_flg" = Some suggest ->
   dispatch sc event all_users w
   = ((if reply then random_reply sc event else ret tt) ;;;
      (if mark then mark_read sc event s else ret tt) ;;;
      (if talk then someones_talking_about_you sc event s all_users else ret tt) ;;;
      (if eight then magic_eight sc event else ret tt) ;;;
      (if suggest then homophone_suggest sc event else ret tt))
       (with_logs w1 (logs w1 ++ [Debug s])))
  /\ (~ allowed ->
      dispatch sc event all_users w
      = (Ok tt, with_logs w1 (logs w1 ++ [Debug s; Debug "Message not in scope."]))).
Proof.
  intros Hs r allowed.
  pose proof (in_scope_iff r s) as Hiff. fold allowed in Hiff.
  rewrite (dispatch_eq sc event all_users w s w1 Hs). fold r.
  split.
  - intros Ha Hreply Hmark Htalk Height Hsuggest.
    apply Hiff in Ha. rewrite Ha. unfold run_behaviors.
    assert (Hself : self (with_logs w1 (logs w1 ++ [Debug s])) = self w)
      by exact (keeps_self_of _ _ _ _ (keeps_get_msg_type sc event) Hs).
    apply guarded_then;
      [now rewrite Hself | apply keeps_random_reply | intros v1 H1].
    rewrite Hself in H1.
    apply guarded_then;
      [now rewrite H1 | apply keeps_mark_read | intros v2 H2].
    rewrite H1 in H2.
    apply guarded_then;
      [now rewrite H2 | apply keeps_someones_talking_about_you | intros v3 H3].
    rewrite H2 in H3.
    apply guarded_then;
      [now rewrite H3 | apply keeps_magic_eight | intros v4 H4].
    rewrite H3 in H4.
    apply guarded_eq. now rewrite H4.
  - intros Ha. destruct (in_scope r s); [|reflexivity].
    exfalso. apply Ha, Hiff. reflexivity.
Qed.



(** Without an allow-list, the test of [random_reply] and [magic_eight]
    fails on any 'message' event that names its sender. *)
Lemma message_from_listed_user_no_list (event : Event) e0 u w :
  event !! 0%nat = Some e0 ->
  e0 !! "type" = Some "message" ->
  e0 !! "user" = Some u ->
  users (self w) = None ->
  message_from_listed_user event w = (Raise TypeError, w).
Proof.
  intros H0 Hty Hu Hnone. unfold message_from_listed_user.
  destruct event as [|e event]; [discriminate|].
  bind_with (field_ok _ _ _ _ w H0 Hty).
  change (String.eqb "message" "message") with true. cbv iota.
  bind_with (field_ok _ _ _ _ w H0 Hu).
  unfold in_users. bind_with (get_self_eq w). rewrite Hnone. reflexivity.
Qed.


Lemma run_behaviors_fourth sc (event : Event) s all_users w w' :
  handler_flags (self w) !! "random_reply_flg" = Some false ->
  (guarded "mark_read_flg" (mark_read sc event s) ;;;
   guarded "someones_talking_about_you_flg"
     (someones_talking_about_you sc event s all_users)) w = (Ok tt, w') ->
  run_behaviors sc event s all_users w
  = (guarded "magic_eight_flg" (magic_eight sc event) ;;;
     guarded "homophone_flg" (homophone_suggest sc event)) w'
  /\ self w' = self w.
Proof.
  intros Hoff H. split.
  - unfold run_behaviors.
    bind_with (guarded_off "random_reply_flg" (random_reply sc event) w Hoff).
    revert H. unfold bind.
    destruct (guarded "mark_read_flg" _ w) as [[[]|] v2]; [|discriminate].
    destruct (guarded "someones_talking_about_you_flg" _ v2) as [[[]|] v3];
      [|discriminate].
    now intros [= ->].
  - refine (keeps_self_of _ _ _ _ _ H).
    apply keeps_bind; [apply keeps_guarded, keeps_mark_read | intros _].
    apply keeps_guarded, keeps_someones_talking_about_you.
Qed.

(** ** The configuration and its two mutators *)

(** The handler as [__init__] leaves it: the seven flags, and a reply pool
    that is not empty. *)
Definition configured (h : Handler) : Prop :=
  (forall name, is_Some (handler_flags h !! name) <-> In name flag_names)
  /\ responses h <> [].

Lemma update_flag_unknown_fails w flag_name flag_value :
  handler_flags (self w) !! flag_name = None ->
  fst (update_flag flag_name flag_value w) <> Ok tt
  /\ self (snd (update_flag flag_name flag_value w)) = self w.
Proof.
  intros Hnone. unfold update_flag.
  erewrite try_except_raise.
  2:{ bind_with (get_self_eq w). rewrite bool_decide_eq_true_2 by exact Hnone.
      reflexivity. }
  split; [discriminate | reflexivity].
Qed.

Lemma add_responses_new_string w s :
  ~ In s (responses (self w)) ->
  fst (add_responses (NRStr s) w) = Ok tt
  /\ self (snd (add_responses (NRStr s) w))
     = with_responses (self w) (responses (self w) ++ [s]).
Proof.
  intros Hnew. unfold add_responses.
  erewrite try_except_ok.
  2:{ bind_with (get_self_eq w).
      rewrite bool_decide_eq_true_2 by (now rewrite list_elem_of_In).
      reflexivity. }
  split; reflexivity.
Qed.

(** X2. For a recognised flag, [update_flag] returns normally and stores
    the value under that name; every other flag, the run level, the
    allow-list, the reply pool and the notify channel stay as they were,
    and nothing is sent or logged. *)
Theorem update_flag_frame w flag_name old flag_value :
  handler_flags (self w) !! flag_name = Some old ->
  let w' := snd (update_flag flag_name flag_value w) in
  fst (update_flag flag_name flag_value w) = Ok tt
  /\ handler_flags (self w') !! flag_name = Some flag_value
  /\ (forall other, other <> flag_name ->
        handler_flags (self w') !! other = handler_flags (self w) !! other)
  /\ run_level (self w') = run_level (self w)
  /\ users (self w') = users (self w)
  /\ responses (self w') = responses (self w)
  /\ stay_channel (self w') = stay_channel (self w)
  /\ calls w' = calls w
  /\ logs w' = logs w.
Proof.
  intros Hold w'. unfold w'.
  rewrite (update_flag_recognized w flag_name old flag_value Hold). simpl.
  split; [reflexivity|]. split; [apply lookup_insert_eq|].
  split; [|repeat split].
  intros other Hne. apply lookup_insert_ne. congruence.
Qed.

(** X3. [add_responses] with a string that is not yet in the pool returns
    normally and puts it at the end of the pool, behind the old replies in
    their old order; nothing else changes. *)
Theorem add_responses_appends w s :
  ~ In s (responses (self w)) ->
  add_responses (NRStr s) w
  = (Ok tt,
     {| self := with_responses (self w) (responses (self w) ++ [s]);
        calls := calls w; logs := logs w; rand := rand w; slept := slept w |}).
Proof.
  intros Hnew. unfold add_responses. apply try_except_ok.
  bind_with (get_self_eq w).
  rewrite bool_decide_eq_true_2 by (now rewrite list_elem_of_In).
  reflexivity.
Qed.

Lemma add_responses_other_raises w type_repr :
  exists message,
    add_responses (NROther type_repr) w
    = (Raise (TypeNotHandledException message),
       with_logs w (logs w ++ [Error message])).
Proof.
  eexists. unfold add_responses.
  erewrite try_except_raise.
  2:{ bind_with (get_self_eq w). reflexivity. }
  reflexivity.
Qed.

(** X4. [add_responses] raises exactly in two cases: for an argument that
    is neither a string nor a list, and for a string that is already in
    the pool. What it raises is then always [TypeNotHandledException],
    after logging its message as an error and with the handler
    untouched. *)
Theorem add_responses_raises_iff w new_responses :
  (exists e, fst (add_responses new_responses w) = Raise e)
  <-> match new_responses with
      | NRStr s => In s (responses (self w))
      | NRList _ => False
      | NROther _ => True
      end
  /\ exists message,
       add_responses new_responses w
       = (Raise (TypeNotHandledException message),
          with_logs w (logs w ++ [Error message])).
Proof.
  destruct new_responses as [s|l|t].
  - destruct (in_dec string_dec s (responses (self w))) as [Hin|Hnew].
    + destruct (add_responses_present_raises w s) as [message Hr];
        [now apply list_elem_of_In|].
      split; [intros _; split; [exact Hin | eauto] |].
      intros _. rewrite Hr. eauto.
    + destruct (add_responses_new_string w s Hnew) as [Hok _].
      split; [intros [e He]; congruence | intros [Hin _]; contradiction].
  - split; [|intros [[] _]].
    intros [e He]. exfalso. revert He. unfold add_responses, try_except, bind.
    simpl. discriminate.
  - destruct (add_responses_other_raises w t) as [message Hr].
    split; [intros _; split; [exact I | eauto] |].
    intros _. rewrite Hr. eauto.
Qed.

Lemma flags_of_init_iff (b1 b2 b3 b4 b5 b6 b7 : bool) name :
  is_Some
    ((list_to_map
        [ ("random_reply_flg", b1); ("random_gif_flg", b2);
          ("set_typing_flg", b3); ("mark_read_flg", b4);
          ("someones_talking_about_you_flg", b5);
          ("magic_eight_flg", b6); ("homophone_flg", b7) ]
      : gmap string bool) !! name)
  <-> In name flag_names.
Proof.
  rewrite <- elem_of_dom, dom_list_to_map_L, elem_of_list_to_set.
  apply list_elem_of_In.
Qed.

(** X5. Whenever [__init__] returns, the handler has exactly the seven
    flags and a reply pool that is not empty: a missing or empty list of
    responses is replaced by the eight default replies. *)
Theorem init_configured token b1 b2 b3 b4 b5 b6 b7 level users_arg
    responses_arg channel init_homophones w :
  fst (init token b1 b2 b3 b4 b5 b6 b7 level users_arg responses_arg channel
         init_homophones w) = Ok tt ->
  configured (self (snd (init token b1 b2 b3 b4 b5 b6 b7 level users_arg
                           responses_arg channel init_homophones w)))
  /\ (responses_arg = None \/ responses_arg = Some [] ->
      responses (self (snd (init token b1 b2 b3 b4 b5 b6 b7 level users_arg
                              responses_arg channel init_homophones w)))
      = default_responses).
Proof.
  unfold init, bind.
  match goal with
  | |- context [match ?m w with _ => _ end] => destruct (m w) as [[us|e] w1]
  end; [|discriminate].
  intros _. simpl. split; [split|].
  - apply flags_of_init_iff.
  - destruct responses_arg as [[|r rs]|]; discriminate.
  - intros [->| ->]; reflexivity.
Qed.

(** X6. Neither mutator can break that: after [update_flag] and after
    [add_responses], with any arguments and whether they return or raise,
    the handler still has exactly the seven flags and a pool that is not
    empty. *)
Theorem configured_preserved w flag_name flag_value new_responses :
  configured (self w) ->
  configured (self (snd (update_flag flag_name flag_value w)))
  /\ configured (self (snd (add_responses new_responses w))).
Proof.
  intros [Hflags Hpool]. split.
  - destruct (handler_flags (self w) !! flag_name) as [old|] eqn:Hold.
    + rewrite (update_flag_recognized w flag_name old flag_value Hold).
      split; [|exact Hpool]. intros name. rewrite <- Hflags.
      change (handler_flags (self (snd (Ok tt, _))))
        with (<[flag_name := flag_value]> (handler_flags (self w))).
      destruct (string_dec flag_name name) as [->|Hne].
      * rewrite lookup_insert_eq, Hold. split; eauto.
      * now rewrite lookup_insert_ne.
    + destruct (update_flag_unknown_fails w flag_name flag_value Hold)
        as [_ ->]. split; assumption.
  - destruct new_responses as [s|l|t].
    + destruct (in_dec string_dec s (responses (self w))) as [Hin|Hnew].
      * destruct (add_responses_present_raises w s) as [message ->];
          [now apply list_elem_of_In|]. split; assumption.
      * destruct (add_responses_new_string w s Hnew) as [_ ->].
        split; [exact Hflags|].
        change (responses (self w) ++ [s] <> []).
        now destruct (responses (self w)).
    + assert (Hrun : add_responses (NRList l) w
                     = (Ok tt, {| self := with_responses (self w)
                                            (list_of_set (responses (self w) ++ l));
                                  calls := calls w; logs := logs w;
                                  rand := rand w; slept := slept w |}))
        by reflexivity.
      rewrite Hrun. simpl. split; [exact Hflags|].
      unfold list_of_set. intros Hempty.
      change (elements (list_to_set (responses (self w) ++ l) : gset string) = [])
        in Hempty.
      apply elements_empty_inv in Hempty.
      destruct (responses (self w)) as [|r rs]; [congruence|].
      apply (not_elem_of_empty (C:=gset string) r). rewrite <- Hempty.
      apply elem_of_list_to_set. now left.
    + destruct (add_responses_other_raises w t) as [message ->].
      split; assumption.
Qed.

(** X7. On such a handler [update_flag] returns normally exactly for the
    seven flag names, whatever the value. *)
Theorem update_flag_succeeds_iff w flag_name flag_value :
  configured (self w) ->
  fst (update_flag flag_name flag_value w) = Ok tt <-> In flag_name flag_names.
Proof.
  intros [Hflags _]. rewrite <- Hflags.
  destruct (handler_flags (self w) !! flag_name) as [old|] eqn:Hold.
  - rewrite (update_flag_recognized w flag_name old flag_value Hold).
    split; eauto.
  - destruct (update_flag_unknown_fails w flag_name flag_value Hold)
      as [Hfails _].
    split; [intros Hok; contradiction | intros [x Hx]; discriminate Hx].
Qed.

(** ** What each behaviour does *)

Lemma event_nonempty (event : Event) e0 :
  event !! 0%nat = Some e0 -> exists rest, event = e0 :: rest.
Proof. destruct event as [|e rest]; [discriminate|]. intros [= ->]. eauto. Qed.

Lemma message_from_listed_user_other_type (event : Event) e0 ty w :
  event !! 0%nat = Some e0 ->
  e0 !! "type" = Some ty ->
  ty <> "message" ->
  message_from_listed_user event w = (Ok false, w).
Proof.
  intros H0 Hty Hne. unfold message_from_listed_user.
  destruct (event_nonempty event e0 H0) as [rest ->].
  bind_with (field_ok _ _ _ _ w H0 Hty).
  apply String.eqb_neq in Hne. now rewrite Hne.
Qed.

Lemma message_from_listed_user_listed (event : Event) e0 u us w :
  event !! 0%nat = Some e0 ->
  e0 !! "type" = Some "message" ->
  e0 !! "user" = Some u ->
  users (self w) = Some us ->
  message_from_listed_user event w = (Ok (bool_decide (u ∈ us)), w).
Proof.
  intros H0 Hty Hu Hus. unfold message_from_listed_user.
  destruct (event_nonempty event e0 H0) as [rest ->].
  bind_with (field_ok _ _ _ _ w H0 Hty).
  change (String.eqb "message" "message") with true. cbv iota.
  bind_with (field_ok _ _ _ _ w H0 Hu).
  unfold in_users. bind_with (get_self_eq w). now rewrite Hus.
Qed.

(** X8. An event whose ['type'] is not ['message'] is left alone by
    [random_reply], [mark_read], [someones_talking_about_you] and
    [magic_eight]: each returns at once, sends nothing, logs nothing and
    draws no random number. *)
Theorem other_event_types_ignored sc (event : Event) e0 ty msg_type all_users w :
  event !! 0%nat = Some e0 ->
  e0 !! "type" = Some ty ->
  ty <> "message" ->
  random_reply sc event w = (Ok tt, w)
  /\ mark_read sc event msg_type w = (Ok tt, w)
  /\ someones_talking_about_you sc event msg_type all_users w = (Ok tt, w)
  /\ magic_eight sc event w = (Ok tt, w).
Proof.
  intros H0 Hty Hne.
  pose proof (message_from_listed_user_other_type event e0 ty w H0 Hty Hne) as Hm.
  pose proof (field_ok event e0 "type" ty w H0 Hty) as Hf.
  apply String.eqb_neq in Hne.
  split; [|split; [|split]].
  - unfold random_reply. apply try_except_ok. bind_with Hm. reflexivity.
  - unfold mark_read. apply try_except_ok. bind_with Hf. now rewrite Hne.
  - unfold someones_talking_about_you. apply try_except_ok. bind_with Hf.
    now rewrite Hne.
  - unfold magic_eight. apply try_except_ok. bind_with Hm. reflexivity.
Qed.

(** X9. A message whose sender is not in the allow-list is left alone by
    [random_reply] and [magic_eight]: nothing is sent, logged or drawn. *)
Theorem unlisted_sender_ignored sc (event : Event) e0 u us w :
  event !! 0%nat = Some e0 ->
  e0 !! "type" = Some "message" ->
  e0 !! "user" = Some u ->
  users (self w) = Some us ->
  ~ In u us ->
  random_reply sc event w = (Ok tt, w)
  /\ magic_eight sc event w = (Ok tt, w).
Proof.
  intros H0 Hty Hu Hus Hout.
  pose proof (message_from_listed_user_listed event e0 u us w H0 Hty Hu Hus) as Hm.
  rewrite bool_decide_eq_false_2 in Hm by (now rewrite list_elem_of_In).
  split.
  - unfold random_reply. apply try_except_ok. bind_with Hm. reflexivity.
  - unfold magic_eight. apply try_except_ok. bind_with Hm. reflexivity.
Qed.

Lemma emit_eq c w : emit c w = (Ok tt, with_calls w (calls w ++ [c])).
Proof. reflexivity. Qed.

(** What [random.randint] draws lies in the range, and drawing touches
    nothing but the tape. *)
Lemma randint_in_range lo hi w :
  lo <= hi ->
  exists r w', randint lo hi w = (Ok r, w')
               /\ lo <= r <= hi
               /\ self w' = self w /\ calls w' = calls w /\ logs w' = logs w
               /\ slept w' = slept w.
Proof.
  intros Hle. unfold randint.
  destruct (hi <? lo) eqn:Hlt; [apply Z.ltb_lt in Hlt; lia|].
  destruct (rand w) as [|n tape].
  - exists lo, w. repeat split; lia.
  - eexists _, _. split; [reflexivity|].
    split; [|repeat split].
    pose proof (Z.mod_pos_bound (Z.of_nat n) (hi - lo + 1)). lia.
Qed.

(** [random_reply] on a message of a listed sender, for either setting of
    [random_gif_flg]. *)
Lemma random_reply_listed sc (event : Event) e0 u c us gif w :
  event !! 0%nat = Some e0 ->
  e0 !! "type" = Some "message" ->
  e0 !! "user" = Some u ->
  e0 !! "channel" = Some c ->
  users (self w) = Some us ->
  In u us ->
  handler_flags (self w) !! "random_gif_flg" = Some gif ->
  responses (self w) <> [] ->
  exists message w1,
    In message (responses (self w))
    /\ self w1 = self w /\ calls w1 = calls w /\ logs w1 = logs w
    /\ random_reply sc event w
       = if gif : bool then
           match giphy_search message with
           | [] => (Raise IndexError,
                    with_calls w1 (calls w ++ [GiphySearch message]))
           | v :: _ =>
               (Ok tt,
                with_calls w1
                  (calls w ++ [GiphySearch message;
                               SendMessage (Some c)
                                 (message +:+ PyStr.nl +:+ v)]))
           end
         else (Ok tt, with_calls w1 (calls w ++ [SendMessage (Some c) message])).
Proof.
  intros H0 Hty Hu Hc Hus Hin Hgif Hpool.
  pose proof (message_from_listed_user_listed event e0 u us w H0 Hty Hu Hus) as Hm.
  rewrite bool_decide_eq_true_2 in Hm by (now rewrite list_elem_of_In).
  assert (Hlen : 0 <= Z.of_nat (length (responses (self w))) - 1)
    by (destruct (responses (self w)); [congruence | simpl; lia]).
  destruct (randint_in_range 0 _ w Hlen)
    as (r & w1 & Hr & Hrange & Hself & Hcalls & Hlogs & _).
  destruct (responses (self w) !! Z.to_nat r) as [message|] eqn:Hmsg.
  2:{ apply lookup_ge_None in Hmsg. lia. }
  exists message, w1.
  split; [apply list_elem_of_In; eapply list_elem_of_lookup_2; exact Hmsg|].
  split; [exact Hself|]. split; [exact Hcalls|]. split; [exact Hlogs|].
  assert (Hflag : flag "random_gif_flg" w1 = (Ok gif, w1)).
  { unfold flag. bind_with (get_self_eq w1). rewrite Hself.
    unfold getitem. now rewrite Hgif. }
  assert (Hidx : getindex (responses (self w1)) r w1 = (Ok message, w1)).
  { unfold getindex. rewrite Hself, Hmsg. reflexivity. }
  unfold random_reply.
  destruct gif.
  - destruct (giphy_search message) as [|v vs] eqn:Hsearch.
    + rewrite (try_except_raise _ _ w IndexError
                 (with_calls w1 (calls w ++ [GiphySearch message])));
        [reflexivity|].
      bind_with Hm. cbv iota. bind_with (get_self_eq w). bind_with Hr.
      bind_with (get_self_eq w1). bind_with Hidx. bind_with Hflag.
      rewrite <- Hcalls. rewrite Hsearch. reflexivity.
    + apply try_except_ok.
      bind_with Hm. cbv iota. bind_with (get_self_eq w). bind_with Hr.
      bind_with (get_self_eq w1). bind_with Hidx. bind_with Hflag.
      rewrite <- Hcalls. rewrite Hsearch.
      rewrite bind_assoc. bind_with (emit_eq (GiphySearch message) w1).
      rewrite bind_assoc.
      set (w2 := with_calls w1 (calls w1 ++ [GiphySearch message])).
      bind_with (eq_refl : getindex (v :: vs) 0 w2 = (Ok v, w2)).
      bind_with (eq_refl : ret (message +:+ PyStr.nl +:+ v) w2
                           = (Ok (message +:+ PyStr.nl +:+ v), w2)).
      bind_with (field_ok _ _ _ _ w2 H0 Hc).
      unfold rtm_send_message, emit, w2, with_calls. simpl.
      now rewrite <- app_assoc.
  - apply try_except_ok.
    bind_with Hm. cbv iota. bind_with (get_self_eq w). bind_with Hr.
    bind_with (get_self_eq w1). bind_with Hidx. bind_with Hflag.
    rewrite <- Hcalls. cbv iota.
    bind_with (eq_refl : ret message w1 = (Ok message, w1)).
    bind_with (field_ok _ _ _ _ w1 H0 Hc). reflexivity.
Qed.

(** X10. With [random_gif_flg] off, [random_reply] answers a message of a
    listed sender with exactly one message, sent to the channel of the
    event, whose text is one of the replies of the pool; it makes no other
    call and logs nothing. *)
Theorem random_reply_sends_pool_member sc (event : Event) e0 u c us w :
  event !! 0%nat = Some e0 ->
  e0 !! "type" = Some "message" ->
  e0 !! "user" = Some u ->
  e0 !! "channel" = Some c ->
  users (self w) = Some us ->
  In u us ->
  handler_flags (self w) !! "random_gif_flg" = Some false ->
  responses (self w) <> [] ->
  exists message,
    In message (responses (self w))
    /\ fst (random_reply sc event w) = Ok tt
    /\ calls (snd (random_reply sc event w))
       = calls w ++ [SendMessage (Some c) message]
    /\ logs (snd (random_reply sc event w)) = logs w
    /\ self (snd (random_reply sc event w)) = self w.
Proof.
  intros H0 Hty Hu Hc Hus Hin Hgif Hpool.
  destruct (random_reply_listed sc event e0 u c us false w
              H0 Hty Hu Hc Hus Hin Hgif Hpool)
    as (message & w1 & Hmem & Hself & _ & Hlogs & ->).
  exists message. simpl. auto.
Qed.

(** X11. With [random_gif_flg] on, [random_reply] first searches Giphy for
    the reply it drew. If the search has a result, the one message sent is
    the reply, a newline and the first result; if it has none, the
    [IndexError] leaves [random_reply] (its handler only takes
    [KeyError]) and no message is sent. *)
Theorem random_reply_with_gif sc (event : Event) e0 u c us w :
  event !! 0%nat = Some e0 ->
  e0 !! "type" = Some "message" ->
  e0 !! "user" = Some u ->
  e0 !! "channel" = Some c ->
  users (self w) = Some us ->
  In u us ->
  handler_flags (self w) !! "random_gif_flg" = Some true ->
  responses (self w) <> [] ->
  exists message,
    In message (responses (self w))
    /\ match giphy_search message with
       | [] =>
           fst (random_reply sc event w) = Raise IndexError
           /\ calls (snd (random_reply sc event w))
              = calls w ++ [GiphySearch message]
       | v :: _ =>
           fst (random_reply sc event w) = Ok tt
           /\ calls (snd (random_reply sc event w))
              = calls w ++ [GiphySearch message;
                            SendMessage (Some c) (message +:+ PyStr.nl +:+ v)]
       end.
Proof.
  intros H0 Hty Hu Hc Hus Hin Hgif Hpool.
  destruct (random_reply_listed sc event e0 u c us true w
              H0 Hty Hu Hc Hus Hin Hgif Hpool)
    as (message & w1 & Hmem & _ & _ & _ & ->).
  exists message. split; [exact Hmem|].
  destruct (giphy_search message); simpl; auto.
Qed.

(** X12. [magic_eight] on a message of a listed sender whose text has a
    '?' (the helper finds it at an index [>= 0]): an index between 0 and
    10 is drawn and Giphy is searched for 'magic eight ball'. If the search
    has a result at that index, it is sent with a newline to the channel of
    the event; if it has fewer results, the [IndexError] leaves
    [magic_eight] and nothing is sent. *)
Theorem magic_eight_question sc (event : Event) e0 u c text us w :
  event !! 0%nat = Some e0 ->
  e0 !! "type" = Some "message" ->
  e0 !! "user" = Some u ->
  e0 !! "channel" = Some c ->
  e0 !! "text" = Some text ->
  users (self w) = Some us ->
  In u us ->
  0 <= find_element_in_string text "?" ->
  exists r,
    0 <= r <= 10
    /\ match giphy_search "magic eight ball" !! Z.to_nat r with
       | Some v =>
           fst (magic_eight sc event w) = Ok tt
           /\ calls (snd (magic_eight sc event w))
              = calls w ++ [GiphySearch "magic eight ball";
                            SendMessage (Some c) (v +:+ PyStr.nl)]
           /\ logs (snd (magic_eight sc event w))
              = logs w ++ [Debug ("TEXT: " +:+ text)]
       | None =>
           fst (magic_eight sc event w) = Raise IndexError
           /\ calls (snd (magic_eight sc event w))
              = calls w ++ [GiphySearch "magic eight ball"]
           /\ logs (snd (magic_eight sc event w)) = logs w
       end.
Proof.
  intros H0 Hty Hu Hc Htx Hus Hin Hq.
  pose proof (message_from_listed_user_listed event e0 u us w H0 Hty Hu Hus) as Hm.
  rewrite bool_decide_eq_true_2 in Hm by (now rewrite list_elem_of_In).
  destruct (randint_in_range 0 10 w ltac:(lia))
    as (r & w1 & Hr & Hrange & Hself & Hcalls & Hlogs & _).
  exists r. split; [exact Hrange|].
  apply Z.leb_le in Hq.
  set (w2 := with_calls w1 (calls w1 ++ [GiphySearch "magic eight ball"])).
  destruct (giphy_search "magic eight ball" !! Z.to_nat r) as [v|] eqn:Hv.
  - assert (Hrun : magic_eight sc event w
                   = (Ok tt,
                      with_calls
                        (with_logs w2 (logs w2 ++ [Debug ("TEXT: " +:+ text)]))
                        (calls w2 ++ [SendMessage (Some c) (v +:+ PyStr.nl)]))).
    { unfold magic_eight. apply try_except_ok.
      bind_with Hm. cbv iota. bind_with Hr.
      bind_with (field_ok _ _ _ _ w1 H0 Htx). rewrite Hq.
      bind_with (emit_eq (GiphySearch "magic eight ball") w1). fold w2.
      erewrite bind_ok by (unfold getindex; rewrite Hv; reflexivity).
      bind_with (field_ok _ _ _ _ w2 H0 Htx).
      bind_with (log_eq (Debug ("TEXT: " +:+ text)) w2).
      bind_with (field_ok _ _ _ _
                   (with_logs w2 (logs w2 ++ [Debug ("TEXT: " +:+ text)])) H0 Hc).
      reflexivity. }
    rewrite Hrun. simpl. rewrite Hcalls, Hlogs, <- app_assoc. auto.
  - assert (Hrun : magic_eight sc event w = (Raise IndexError, w2)).
    { unfold magic_eight.
      rewrite (try_except_raise _ _ w IndexError w2); [reflexivity|].
      bind_with Hm. cbv iota. bind_with Hr.
      bind_with (field_ok _ _ _ _ w1 H0 Htx). rewrite Hq.
      bind_with (emit_eq (GiphySearch "magic eight ball") w1). fold w2.
      erewrite bind_raise by (unfold getindex; rewrite Hv; reflexivity).
      reflexivity. }
    rewrite Hrun. simpl. rewrite Hcalls, Hlogs. auto.
Qed.

(** X13. [magic_eight] on a message of a listed sender whose text has no
    '?' (the helper answers below 0) only logs that no question mark was
    found: no search, no message. *)
Theorem magic_eight_no_question sc (event : Event) e0 u text us w :
  event !! 0%nat = Some e0 ->
  e0 !! "type" = Some "message" ->
  e0 !! "user" = Some u ->
  e0 !! "text" = Some text ->
  users (self w) = Some us ->
  In u us ->
  find_element_in_string text "?" < 0 ->
  fst (magic_eight sc event w) = Ok tt
  /\ calls (snd (magic_eight sc event w)) = calls w
  /\ logs (snd (magic_eight sc event w))
     = logs w ++ [Debug "No question mark found"].
Proof.
  intros H0 Hty Hu Htx Hus Hin Hq.
  pose proof (message_from_listed_user_listed event e0 u us w H0 Hty Hu Hus) as Hm.
  rewrite bool_decide_eq_true_2 in Hm by (now rewrite list_elem_of_In).
  destruct (randint_in_range 0 10 w ltac:(lia))
    as (r & w1 & Hr & _ & _ & Hcalls & Hlogs & _).
  assert (Hno : (0 <=? find_element_in_string text "?") = false)
    by (apply Z.leb_gt; exact Hq).
  assert (Hrun : magic_eight sc event w
                 = (Ok tt, with_logs w1 (logs w1 ++ [Debug "No question mark found"]))).
  { unfold magic_eight. apply try_except_ok.
    bind_with Hm. cbv iota. bind_with Hr.
    bind_with (field_ok _ _ _ _ w1 H0 Htx). rewrite Hno. reflexivity. }
  rewrite Hrun. simpl. rewrite Hcalls, Hlogs. auto.
Qed.

(** The words [homophone_suggest] keeps: the stripped words that are keys
    of the table, in the order of the text and with their repetitions. *)
Lemma homophone_words_table words (table : gmap string string) w :
  homophones (self w) = Some table ->
  homophone_words words w
  = (Ok (List.filter (fun word => bool_decide (word ∈ dom table))
           (map strip_punctuation words)), w).
Proof.
  intros Ht. induction words as [|word words IH]; [reflexivity|].
  cbn [homophone_words map List.filter].
  assert (Hk : homophones_keys w = (Ok (dom table), w)).
  { unfold homophones_keys. bind_with (get_self_eq w). now rewrite Ht. }
  bind_with Hk.
  destruct (bool_decide (strip_punctuation word ∈ dom table)).
  - bind_with IH. reflexivity.
  - exact IH.
Qed.

Lemma homophone_messages_sent (event : Event) e0 u c (table : gmap string string)
    (found : list string) w :
  event !! 0%nat = Some e0 ->
  e0 !! "user" = Some u ->
  e0 !! "channel" = Some c ->
  homophones (self w) = Some table ->
  Forall (fun word => word ∈ dom table) found ->
  forM_ found (fun word =>
    user <- field event "user" ;;
    v <- homophones_item word ;;
    let message := homophone_message user word v in
    channel <- field event "channel" ;;
    rtm_send_message (Some channel) message) w
  = (Ok tt,
     with_calls w
       (calls w ++ map (fun word =>
                          SendMessage (Some c)
                            (homophone_message u word (default "" (table !! word))))
                     found)).
Proof.
  intros H0 Hu Hc. revert w.
  induction found as [|word found IH]; intros w Ht Hall.
  - cbn [forM_ map]. rewrite app_nil_r. now destruct w.
  - apply Forall_cons in Hall as [Hword Hall].
    apply elem_of_dom in Hword as [v Hv].
    cbn [forM_ map]. rewrite bind_assoc.
    bind_with (field_ok _ _ _ _ w H0 Hu). rewrite bind_assoc.
    assert (Hitem : homophones_item word w = (Ok v, w)).
    { unfold homophones_item. bind_with (get_self_eq w). rewrite Ht.
      unfold getitem. now rewrite Hv. }
    bind_with Hitem. cbv zeta. rewrite bind_assoc.
    bind_with (field_ok _ _ _ _ w H0 Hc).
    bind_with (emit_eq (SendMessage (Some c) (homophone_message u word v)) w).
    rewrite IH by assumption.
    rewrite Hv. unfold with_calls. simpl. now rewrite <- app_assoc.
Qed.

(** X14. With a table loaded, [homophone_suggest] lowers the text, cuts it
    at the spaces and strips each piece; for every piece that is a key of
    the table, in the order of the text and as often as it occurs, it
    sends one message to the channel of the event, naming the sender, the
    word and the correction of the table. It looks neither at the type of
    the event nor at the allow-list, and sends nothing else. *)
Theorem homophone_suggest_messages sc (event : Event) e0 u c text
    (table : gmap string string) w :
  event !! 0%nat = Some e0 ->
  e0 !! "text" = Some text ->
  e0 !! "user" = Some u ->
  e0 !! "channel" = Some c ->
  homophones (self w) = Some table ->
  let found :=
    List.filter (fun word => bool_decide (word ∈ dom table))
      (map strip_punctuation (PyStr.split_space (lower text))) in
  homophone_suggest sc event w
  = (Ok tt,
     with_calls w
       (calls w ++ map (fun word =>
                          SendMessage (Some c)
                            (homophone_message u word (default "" (table !! word))))
                     found)).
Proof.
  intros H0 Htx Hu Hc Ht found. unfold homophone_suggest. apply try_except_ok.
  bind_with (field_ok _ _ _ _ w H0 Htx).
  bind_with (homophone_words_table (PyStr.split_space (lower text)) table w Ht).
  fold found.
  apply (homophone_messages_sent event e0 u c table found w H0 Hu Hc Ht).
  apply Forall_forall. intros word Hin. unfold found in Hin.
  apply list_elem_of_In, filter_In in Hin as [_ Hin].
  now apply bool_decide_eq_true in Hin.
Qed.

(** X15. In scope 'Public', [someones_talking_about_you] does nothing for
    an event that has a type: the directory is not searched and the
    members of the channel are not asked for. *)
Theorem talking_in_public_does_nothing sc (event : Event) e0 ty all_users w :
  event !! 0%nat = Some e0 ->
  e0 !! "type" = Some ty ->
  someones_talking_about_you sc event "Public" all_users w = (Ok tt, w).
Proof.
  intros H0 Hty. unfold someones_talking_about_you. apply try_except_ok.
  bind_with (field_ok _ _ _ _ w H0 Hty).
  change (String.eqb "Public" "Public") with true.
  rewrite andb_false_r. reflexivity.
Qed.

(** X16. A 'message' event without a ['text'] makes [mark_read],
    [someones_talking_about_you] (outside scope 'Public') and
    [homophone_suggest] raise [KeyError] for 'text': the event has a type,
    so their handlers raise it again. None of them has sent or logged
    anything by then. *)
Theorem message_without_text_raises sc (event : Event) e0 msg_type all_users w :
  event !! 0%nat = Some e0 ->
  e0 !! "type" = Some "message" ->
  e0 !! "text" = None ->
  mark_read sc event msg_type w = (Raise (KeyError "text"), w)
  /\ (msg_type <> "Public" ->
      someones_talking_about_you sc event msg_type all_users w
      = (Raise (KeyError "text"), w))
  /\ homophone_suggest sc event w = (Raise (KeyError "text"), w).
Proof.
  intros H0 Hty Hno.
  pose proof (field_ok event e0 "type" "message" w H0 Hty) as Hf.
  pose proof (field_missing event e0 "text" w H0 Hno) as Ht.
  assert (Htyped : is_Some (e0 !! "type")) by eauto.
  split; [|split].
  - unfold mark_read. rewrite (ignore_untyped_reraises _ event e0 w H0 Htyped).
    bind_with Hf. change (String.eqb "message" "message") with true. cbv iota.
    bind_with Ht. reflexivity.
  - intros Hpub. apply String.eqb_neq in Hpub.
    unfold someones_talking_about_you.
    rewrite (ignore_untyped_reraises _ event e0 w H0 Htyped).
    bind_with Hf. change (String.eqb "message" "message") with true.
    rewrite Hpub. cbn [negb andb]. bind_with Ht. reflexivity.
  - unfold homophone_suggest.
    rewrite (ignore_untyped_reraises _ event e0 w H0 Htyped).
    bind_with Ht. reflexivity.
Qed.

(** ** The loop *)

(** X17. An event without a ['channel'] cannot be classified: the turn
    asks nothing of the client, logs the event as ignored and ends without
    raising. The sleep of the turn is skipped. *)
Theorem turn_without_channel_ignored sc (event : Event) e0 all_users w :
  event !! 0%nat = Some e0 ->
  e0 !! "channel" = None ->
  handle_event sc event all_users w
  = (Ok tt, with_logs w (logs w ++ [DebugEvent event; DebugIgnored event])).
Proof.
  intros H0 Hno. rewrite (handle_event_eq sc event e0 all_users w H0).
  unfold dispatch, get_msg_type.
  rewrite bind_assoc.
  bind_with (field_missing _ _ _ (with_logs w (logs w ++ [DebugEvent event])) H0 Hno).
  unfold with_logs. simpl. now rewrite <- app_assoc.
Qed.

(** X18. Turns in which [rtm_read] has nothing to deliver only sleep: a
    run of [n] such turns sends nothing, logs nothing and sleeps [n]
    times. *)
Theorem idle_polling sc all_users start length ticks w :
  Forall (fun tk => tk_connected tk = true
                    /\ (tk_time tk <=? start + length) || (length =? -1) = true
                    /\ tk_read tk = Ok []) ticks ->
  event_loop sc all_users start length ticks w
  = (Ok tt, {| self := self w; calls := calls w; logs := logs w; rand := rand w;
               slept := (List.length ticks + slept w)%nat |}).
Proof.
  revert w. induction ticks as [|tk ticks IH]; intros w Hidle.
  - now destruct w.
  - apply Forall_cons in Hidle as [(Hc & Ht & Hr) Hidle].
    rewrite (event_loop_step sc all_users start length tk ticks [] w Hc Ht Hr).
    change (handle_event sc [] all_users w) with (sleep w).
    unfold sleep. rewrite (IH _ Hidle). simpl.
    now rewrite Nat.add_succ_r.
Qed.

Lemma handle_event_no_KeyError sc event all_users w k :
  fst (handle_event sc event all_users w) <> Raise (KeyError k).
Proof.
  unfold handle_event, try_except.
  match goal with
  | |- context [match ?m w with _ => _ end] => destruct (m w) as [[[]|e] w']
  end; [discriminate|].
  destruct e; discriminate.
Qed.

(** X19. No [KeyError] raised while an event is handled ever leaves the
    loop: if [rtm_read] itself raises none, the loop raises none, whatever
    the events and the answers of the client. *)
Theorem event_loop_no_KeyError sc all_users start length ticks w k :
  Forall (fun tk => forall k', tk_read tk <> Raise (KeyError k')) ticks ->
  fst (event_loop sc all_users start length ticks w) <> Raise (KeyError k).
Proof.
  revert w. induction ticks as [|tk ticks IH]; intros w Hreads.
  - discriminate.
  - apply Forall_cons in Hreads as [Hread Hreads].
    cbn [event_loop].
    destruct (tk_connected tk && _); [|discriminate].
    destruct (tk_read tk) as [event|e] eqn:Hr.
    + unfold bind at 1. cbn [ret].
      pose proof (handle_event_no_KeyError sc event all_users w k) as Hturn.
      unfold bind.
      destruct (handle_event sc event all_users w) as [[[]|e] w'].
      * apply IH, Hreads.
      * exact Hturn.
    + unfold bind, raise. simpl. intros [= ->]. now apply (Hread k).
Qed.

(** X20. When the answer to [users.list] has no ['members'] (as an error
    answer has none), [begin] raises [KeyError] for 'members' right after
    connecting: no event is read and nothing is logged. *)
Theorem begin_without_user_list length w :
  let sc := new_SlackClient (slack_token (self w)) in
  rtm_connect_result sc = Ok true ->
  api_answer sc (calls w ++ [RtmConnect]) "users.list" [] !! "members" = None ->
  begin length w
  = (Raise (KeyError "members"),
     with_calls w (calls w ++ [RtmConnect; ApiCall "users.list" []])).
Proof.
  intros sc Hconn Hno. unfold begin.
  bind_with (get_self_eq w). fold sc.
  rewrite (try_except_raise _ _ w (KeyError "members")
             (with_calls w (calls w ++ [RtmConnect; ApiCall "users.list" []])));
    [reflexivity|].
  erewrite bind_ok by (rewrite rtm_connect_eq, Hconn; reflexivity).
  cbv iota. unfold load_directory. rewrite bind_assoc.
  bind_with (api_call_eq sc "users.list" [] (with_calls w (calls w ++ [RtmConnect]))).
  cbn [calls with_calls]. rewrite bind_assoc.
  unfold getitem at 1. rewrite Hno.
  unfold bind, raise, with_calls. simpl. now rewrite <- app_assoc.
Qed.

(** X21. A [KeyboardInterrupt] that ends the loop is logged as the stop of
    the monitor and raised again to the caller of [begin]. *)
Theorem begin_interrupted length w all_users w1 w2 :
  let sc := new_SlackClient (slack_token (self w)) in
  rtm_connect_result sc = Ok true ->
  load_directory sc (with_calls w (calls w ++ [RtmConnect])) = (Ok all_users, w1) ->
  event_loop sc all_users (time_start sc) length (rtm_ticks sc) w1
  = (Raise KeyboardInterrupt, w2) ->
  begin length w
  = (Raise KeyboardInterrupt,
     with_logs w2 (logs w2 ++ [Debug "Stopping Slack monitor."])).
Proof.
  intros sc Hconn Hdir Hloop. unfold begin.
  bind_with (get_self_eq w). fold sc.
  rewrite (try_except_raise _ _ w KeyboardInterrupt w2); [reflexivity|].
  erewrite bind_ok by (rewrite rtm_connect_eq, Hconn; reflexivity).
  cbv iota. bind_with Hdir. bind_with Hloop. reflexivity.
Qed.

(** X22. When the loop ends without an error, [begin] returns normally. It
    logs that event handling is completed exactly when the clock is then
    past [start_time + length]; for an unbounded run ([length = -1]) that
    is the case whenever the clock has not gone back, so the stop after a
    lost connection is logged as a completed run. *)
Theorem begin_returns length w all_users w1 w2 :
  let sc := new_SlackClient (slack_token (self w)) in
  let completed :=
    Debug ("Event handling completed." +:+ PyStr.nl +:+ "Stopping Slack monitor.") in
  rtm_connect_result sc = Ok true ->
  load_directory sc (with_calls w (calls w ++ [RtmConnect])) = (Ok all_users, w1) ->
  event_loop sc all_users (time_start sc) length (rtm_ticks sc) w1 = (Ok tt, w2) ->
  begin length w
  = (Ok tt, if time_start sc + length <? time_end sc
            then with_logs w2 (logs w2 ++ [completed]) else w2)
  /\ (length = -1 -> time_start sc <= time_end sc ->
      begin length w = (Ok tt, with_logs w2 (logs w2 ++ [completed]))).
Proof.
  intros sc completed Hconn Hdir Hloop.
  assert (Hrun : begin length w
                 = (Ok tt, if time_start sc + length <? time_end sc
                           then with_logs w2 (logs w2 ++ [completed]) else w2)).
  { unfold begin. bind_with (get_self_eq w). fold sc.
    apply try_except_ok.
    erewrite bind_ok by (rewrite rtm_connect_eq, Hconn; reflexivity).
    cbv iota. bind_with Hdir. bind_with Hloop.
    destruct (time_start sc + length <? time_end sc); reflexivity. }
  split; [exact Hrun|].
  intros -> Hclock. rewrite Hrun.
  assert (Hlt : (time_start sc + -1 <? time_end sc) = true)
    by (apply Z.ltb_lt; lia).
  now rewrite Hlt.
Qed.

(** X23. A run level other than the three strings 'DM Only', 'Private' and
    'All' admits no scope: every classified event is only logged as out of
    scope, and no behaviour runs. *)
Theorem unknown_run_level_disables sc (event : Event) all_users w s w1 :
  run_level (self w) <> "DM Only" ->
  run_level (self w) <> "Private" ->
  run_level (self w) <> "All" ->
  get_msg_type sc event w = (Ok s, w1) ->
  dispatch sc event all_users w
  = (Ok tt, with_logs w1 (logs w1 ++ [Debug s; Debug "Message not in scope."])).
Proof.
  intros Hdm Hpr Hall Hs.
  rewrite (dispatch_eq sc event all_users w s w1 Hs).
  unfold in_scope.
  apply String.eqb_neq in Hdm, Hpr, Hall. now rewrite Hdm, Hpr, Hall.
Qed.

Lemma keeps_homophones_keys : keeps_self homophones_keys.
Proof. unfold homophones_keys. repeat keeps_step. Qed.

Lemma keeps_homophones_item word : keeps_self (homophones_item word).
Proof. unfold homophones_item. repeat keeps_step. Qed.

Lemma keeps_homophone_words words : keeps_self (homophone_words words).
Proof.
  induction words as [|word words IH]; cbn [homophone_words]; [apply keeps_ret|].
  apply keeps_bind; [apply keeps_homophones_keys | intros keys].
  destruct (bool_decide _); [|exact IH].
  apply keeps_bind; [exact IH | intros ?; apply keeps_ret].
Qed.

Lemma keeps_homophone_suggest sc event : keeps_self (homophone_suggest sc event).
Proof.
  unfold homophone_suggest. apply keeps_try_except; [|apply keeps_ignore_untyped].
  apply keeps_bind; [apply keeps_field | intros text].
  apply keeps_bind; [apply keeps_homophone_words | intros found].
  apply keeps_forM_. intros word.
  apply keeps_bind; [apply keeps_field | intros user].
  apply keeps_bind; [apply keeps_homophones_item | intros v].
  apply keeps_bind; [apply keeps_field | intros channel].
  apply keeps_rtm_send_message.
Qed.

Lemma keeps_run_behaviors sc event msg_type all_users :
  keeps_self (run_behaviors sc event msg_type all_users).
Proof.
  unfold run_behaviors.
  apply keeps_bind; [apply keeps_guarded, keeps_random_reply | intros _].
  apply keeps_bind; [apply keeps_guarded, keeps_mark_read | intros _].
  apply keeps_bind;
    [apply keeps_guarded, keeps_someones_talking_about_you | intros _].
  apply keeps_bind; [apply keeps_guarded, keeps_magic_eight | intros _].
  apply keeps_guarded, keeps_homophone_suggest.
Qed.

Lemma keeps_dispatch sc event all_users : keeps_self (dispatch sc event all_users).
Proof.
  unfold dispatch.
  apply keeps_bind; [apply keeps_get_msg_type | intros s].
  apply keeps_bind; [apply keeps_log | intros _].
  apply keeps_bind; [apply keeps_get_self | intros h].
  destruct (in_scope _ _); [apply keeps_run_behaviors | apply keeps_log].
Qed.

Lemma keeps_handle_event sc event all_users :
  keeps_self (handle_event sc event all_users).
Proof.
  unfold handle_event. apply keeps_try_except.
  - apply keeps_bind; [|intros _; apply keeps_sleep].
    destruct event; [apply keeps_ret|].
    apply keeps_bind; [apply keeps_log | intros _; apply keeps_dispatch].
  - intros e k. destruct e; try discriminate. intros [= <-]. apply keeps_log.
Qed.

Lemma keeps_event_loop sc all_users start length ticks :
  keeps_self (event_loop sc all_users start length ticks).
Proof.
  induction ticks as [|tk ticks IH]; cbn [event_loop]; [apply keeps_ret|].
  destruct (tk_connected tk && _); [|apply keeps_ret].
  apply keeps_bind; [destruct (tk_read tk); auto with keeps | intros event].
  apply keeps_bind; [apply keeps_handle_event | intros _; exact IH].
Qed.

(** X24. [begin] never assigns an attribute of the handler: whatever the
    client answers and delivers, and whether [begin] returns or raises,
    flags, run level, allow-list, reply pool, notify channel and homophone
    table are afterwards what they were before. *)
Theorem begin_keeps_handler length w :
  self (snd (begin length w)) = self w.
Proof.
  revert w. change (keeps_self (begin length)). unfold begin.
  apply keeps_bind; [apply keeps_get_self | intros h].
  apply keeps_try_except.
  - apply keeps_bind.
    { unfold rtm_connect. apply keeps_bind; [apply keeps_emit | intros _].
      destruct (rtm_connect_result _); auto with keeps. }
    intros [|]; [|apply keeps_ret].
    apply keeps_bind; [apply keeps_load_directory | intros all_users].
    apply keeps_bind; [apply keeps_event_loop | intros _].
    destruct (_ <? _); auto with keeps.
  - intros e k. destruct e; try discriminate. intros [= <-].
    apply keeps_bind; [apply keeps_log | intros _; apply keeps_raise].
Qed.

(** ** The user directory *)

(** What [directory_entry] yields for one member of [users.list]. *)
Definition entry_of (member : RawUser) (entry : option User) : Prop :=
  exists profile,
    ru_profile member = Some profile
    /\ match entry with
       | Some user =>
           ru_name member = Some (name user)
           /\ ru_id member = Some (id user)
           /\ profile !! "first_name" = Some (first_name user)
           /\ profile !! "last_name" = Some (last_name user)
       | None =>
           profile !! "first_name" = None \/ profile !! "last_name" = None
       end.

Lemma directory_entry_ok member entry w w' :
  directory_entry member w = (Ok entry, w') -> w' = w /\ entry_of member entry.
Proof.
  unfold directory_entry, entry_of.
  destruct (ru_profile member) as [profile|]; [|discriminate].
  cbn [bind ret]. unfold bind at 1. cbn [ret].
  destruct (profile !! "first_name") as [f|] eqn:Hf;
    [destruct (profile !! "last_name") as [l|] eqn:Hl|].
  - rewrite !bool_decide_eq_true_2 by eauto. cbn [andb].
    destruct (ru_name member) as [n|]; [|discriminate].
    destruct (ru_id member) as [i|]; [|discriminate].
    unfold bind, ret, getitem. rewrite Hf, Hl.
    intros [= <- <-]. split; [reflexivity|]. exists profile. simpl. auto.
  - rewrite (bool_decide_eq_false_2 (is_Some None))
      by (intros [x Hx]; discriminate Hx).
    rewrite andb_false_r. intros [= <- <-]. split; [reflexivity|].
    exists profile. auto.
  - rewrite (bool_decide_eq_false_2 (is_Some None))
      by (intros [x Hx]; discriminate Hx).
    cbn [andb]. intros [= <- <-]. split; [reflexivity|].
    exists profile. auto.
Qed.

Lemma directory_entries_ok raw entries w w' :
  mapM directory_entry raw w = (Ok entries, w') ->
  w' = w /\ Forall2 entry_of raw entries.
Proof.
  revert entries w'. induction raw as [|member raw IH]; intros entries w';
    cbn [mapM].
  - intros [= <- <-]. split; [reflexivity | constructor].
  - unfold bind at 1.
    destruct (directory_entry member w) as [[entry|e] v] eqn:He; [|discriminate].
    apply directory_entry_ok in He as [-> Hentry].
    unfold bind at 1.
    destruct (mapM directory_entry raw w) as [[rest|e] v] eqn:Hrest;
      [|discriminate].
    destruct (IH rest v eq_refl) as [-> Hall].
    intros [= <- <-]. split; [reflexivity|]. now constructor.
Qed.

(** X25. When the directory is built without an error, it holds exactly
    the members of the [users.list] answer whose profile has both a first
    and a last name, each with its own name, id and the two names. A
    member whose profile lacks one of them is left out (whether or not it
    has a name and an id), and building the directory sends and logs
    nothing. *)
Theorem directory_entries raw us w w' :
  directory raw w = (Ok us, w') ->
  w' = w
  /\ (forall user, In user us ->
        exists member profile,
          In member raw
          /\ ru_name member = Some (name user)
          /\ ru_id member = Some (id user)
          /\ ru_profile member = Some profile
          /\ profile !! "first_name" = Some (first_name user)
          /\ profile !! "last_name" = Some (last_name user))
  /\ (forall member profile,
        In member raw ->
        ru_profile member = Some profile ->
        is_Some (profile !! "first_name") ->
        is_Some (profile !! "last_name") ->
        exists user, In user us /\ ru_id member = Some (id user)).
Proof.
  unfold directory, bind.
  destruct (mapM directory_entry raw w) as [[entries|e] v] eqn:Hm; [|discriminate].
  apply directory_entries_ok in Hm as [-> Hall].
  intros [= <- <-]. split; [reflexivity|]. split.
  - intros user Hin. apply list_elem_of_In, list_elem_of_omap in Hin
      as (entry & Hentry & ->).
    apply list_elem_of_lookup in Hentry as [i Hi].
    destruct (Forall2_lookup_r _ _ _ _ _ Hall Hi)
      as (member & Hmember & profile & Hp & Hn & Hid & Hf & Hl).
    exists member, profile. repeat split; try assumption.
    apply list_elem_of_In. eapply list_elem_of_lookup_2. exact Hmember.
  - intros member profile Hin Hp [f Hf] [l Hl].
    apply list_elem_of_In, list_elem_of_lookup in Hin as [i Hi].
    destruct (Forall2_lookup_l _ _ _ _ _ Hall Hi)
      as (entry & Hentry & profile' & Hp' & Hcase).
    assert (profile' = profile) as -> by congruence.
    destruct entry as [user|]; [|destruct Hcase; congruence].
    destruct Hcase as (_ & Hid & _). exists user. split; [|exact Hid].
    apply list_elem_of_In, list_elem_of_omap. exists (Some user).
    split; [|reflexivity]. eapply list_elem_of_lookup_2. exact Hentry.
Qed.

Lemma member_ids_ok raw w :
  Forall (fun member => is_Some (ru_id member)) raw ->
  mapM (fun user => match ru_id user with
                    | Some i => ret i
                    | None => raise (KeyError "id")
                    end) raw w
  = (Ok (omap ru_id raw), w).
Proof.
  induction 1 as [|member raw [i Hi] _ IH]; [reflexivity|].
  assert (Ho : omap ru_id (member :: raw) = i :: omap ru_id raw)
    by (cbn; now rewrite Hi).
  rewrite Ho. cbn [mapM]. rewrite Hi. unfold bind at 1. cbn [ret].
  bind_with IH. reflexivity.
Qed.

(** X26. Built with [users='All'], the handler takes as its allow-list the
    ids of all members of the [users.list] answer, in their order. For
    that [__init__] connects a client of its own and asks for the list;
    what [rtm_connect] answers is not looked at. *)
Theorem init_all_users token b1 b2 b3 b4 b5 b6 b7 level responses_arg channel
    init_homophones connected raw w :
  let sc := new_SlackClient token in
  rtm_connect_result sc = Ok connected ->
  api_answer sc (calls w ++ [RtmConnect]) "users.list" [] !! "members"
    = Some (PUsers raw) ->
  Forall (fun member => is_Some (ru_id member)) raw ->
  let w' := snd (init token b1 b2 b3 b4 b5 b6 b7 level UsersAll responses_arg
                   channel init_homophones w) in
  fst (init token b1 b2 b3 b4 b5 b6 b7 level UsersAll responses_arg channel
         init_homophones w) = Ok tt
  /\ users (self w') = Some (omap ru_id raw)
  /\ calls w' = calls w ++ [RtmConnect; ApiCall "users.list" []].
Proof.
  intros sc Hconn Hmembers Hids w'. unfold w', init. fold sc. clear w'.
  set (w1 := with_calls w (calls w ++ [RtmConnect])).
  set (w2 := with_calls w1 (calls w1 ++ [ApiCall "users.list" []])).
  erewrite bind_ok.
  2:{ erewrite bind_ok by (rewrite rtm_connect_eq, Hconn; reflexivity).
      fold w1. bind_with (api_call_eq sc "users.list" [] w1). fold w2.
      erewrite bind_ok
        by (unfold getitem; cbn [calls w1 with_calls]; rewrite Hmembers;
            reflexivity).
      bind_with (eq_refl : as_users (PUsers raw) w2 = (Ok raw, w2)).
      bind_with (member_ids_ok raw w2 Hids). reflexivity. }
  unfold set_self, w2, w1, with_calls. simpl.
  split; [reflexivity|]. split; [reflexivity|]. now rewrite <- app_assoc.
Qed.

(** ** Errors that end the loop *)

(** The turns before a given one, when each is taken and the loop returns
    from them all. *)
Lemma event_loop_app sc all_users start length pre rest w w' :
  Forall (fun tk => tk_connected tk
                    && ((tk_time tk <=? start + length) || (length =? -1)) = true)
         pre ->
  event_loop sc all_users start length pre w = (Ok tt, w') ->
  event_loop sc all_users start length (pre ++ rest) w
  = event_loop sc all_users start length rest w'.
Proof.
  revert w. induction pre as [|tk pre IH]; intros w Hlive Hpre.
  - cbn [event_loop] in Hpre. unfold ret in Hpre. now injection Hpre as <-.
  - apply Forall_cons_iff in Hlive as [Htk Hlive].
    cbn [event_loop app] in *. rewrite Htk in *. unfold bind in *.
    destruct (match tk_read tk with Ok event => ret event | Raise e => raise e end w)
      as [[ev|e] v]; [|discriminate].
    destruct (handle_event sc ev all_users v) as [[[]|e] v']; [|discriminate].
    now apply IH.
Qed.

(** An error other than a [KeyError] and an interrupt, raised by the
    behaviours on an event read after any number of turns from which the
    loop returned, ends [begin]. *)
Lemma begin_event_raises length w all_users pre tk rest (event : Event) e0 s
    w1 wp w2 e w3 :
  let sc := new_SlackClient (slack_token (self w)) in
  rtm_connect_result sc = Ok true ->
  load_directory sc (with_calls w (calls w ++ [RtmConnect])) = (Ok all_users, w1) ->
  rtm_ticks sc = pre ++ tk :: rest ->
  Forall (fun tk => tk_connected tk
                    && ((tk_time tk <=? time_start sc + length) || (length =? -1))
                    = true) pre ->
  event_loop sc all_users (time_start sc) length pre w1 = (Ok tt, wp) ->
  tk_connected tk = true ->
  (tk_time tk <=? time_start sc + length) || (length =? -1) = true ->
  tk_read tk = Ok event ->
  event !! 0%nat = Some e0 ->
  get_msg_type sc event (with_logs wp (logs wp ++ [DebugEvent event])) = (Ok s, w2) ->
  in_scope (run_level (self w)) s = true ->
  run_behaviors sc event s all_users (with_logs w2 (logs w2 ++ [Debug s]))
  = (Raise e, w3) ->
  (forall k, e <> KeyError k) ->
  e <> KeyboardInterrupt ->
  begin length w = (Raise e, w3).
Proof.
  intros sc Hconn Hdir Hticks Hlive Hpre Hc Ht Hr H0 Hs Hscope Hrun Hk Hi.
  assert (Hself : self wp = self w).
  { rewrite (keeps_self_of _ _ _ _ (keeps_event_loop sc all_users _ length pre) Hpre).
    now rewrite (keeps_self_of _ _ _ _ (keeps_load_directory sc) Hdir). }
  apply (begin_raises length w all_users w1 e w3 Hconn Hdir); [|exact Hi].
  fold sc. rewrite Hticks.
  rewrite (event_loop_app sc all_users _ length pre (tk :: rest) w1 wp Hlive Hpre).
  rewrite (event_loop_step sc all_users _ length tk rest event wp Hc Ht Hr).
  rewrite (handle_event_eq sc event e0 all_users wp H0).
  rewrite (dispatch_eq sc event all_users _ s w2 Hs).
  change (self (with_logs wp (logs wp ++ [DebugEvent event]))) with (self wp).
  rewrite Hself, Hscope, Hrun.
  destruct e; try reflexivity. exfalso. eapply Hk. reflexivity.
Qed.


(** C10, as the code has it. Let the handler have no allow-list ([users]
    is [None]) and let [begin], after any number of turns from which the
    loop returned, dispatch a 'message' event that names its sender and is
    in scope. If [random_reply_flg] is enabled, [random_reply], the first
    behaviour, tests the sender against [None]: the [TypeError] is caught
    by no handler and ends [begin]. If only [magic_eight_flg] is enabled,
    [magic_eight] does the same provided [mark_read] and
    [someones_talking_about_you], which come before it, return. *)
Theorem missing_allow_list_crash w length all_users pre tk rest (event : Event)
    e0 u s w1 wp w2 :
  let sc := new_SlackClient (slack_token (self w)) in
  users (self w) = None ->
  rtm_connect_result sc = Ok true ->
  load_directory sc (with_calls w (calls w ++ [RtmConnect])) = (Ok all_users, w1) ->
  rtm_ticks sc = pre ++ tk :: rest ->
  Forall (fun tk => tk_connected tk
                    && ((tk_time tk <=? time_start sc + length) || (length =? -1))
                    = true) pre ->
  event_loop sc all_users (time_start sc) length pre w1 = (Ok tt, wp) ->
  tk_connected tk = true ->
  (tk_time tk <=? time_start sc + length) || (length =? -1) = true ->
  tk_read tk = Ok event ->
  event !! 0%nat = Some e0 ->
  e0 !! "type" = Some "message" ->
  e0 !! "user" = Some u ->
  get_msg_type sc event (with_logs wp (logs wp ++ [DebugEvent event])) = (Ok s, w2) ->
  in_scope (run_level (self w)) s = true ->
  let w3 := with_logs w2 (logs w2 ++ [Debug s]) in
  (handler_flags (self w) !! "random_reply_flg" = Some true ->
   random_reply sc event w3 = (Raise TypeError, w3)
   /\ begin length w = (Raise TypeError, w3))
  /\ (forall w4,
        handler_flags (self w) !! "random_reply_flg" = Some false ->
        handler_flags (self w) !! "magic_eight_flg" = Some true ->
        (guarded "mark_read_flg" (mark_read sc event s) ;;;
         guarded "someones_talking_about_you_flg"
           (someones_talking_about_you sc event s all_users)) w3 = (Ok tt, w4) ->
        magic_eight sc event w4 = (Raise TypeError, w4)
        /\ begin length w = (Raise TypeError, w4)).
Proof.
  intros sc Hnone Hconn Hdir Hticks Hlive Hloop Hc Ht Hr H0 Hty Hu Hs Hscope w3.
  assert (Hself : self w3 = self w).
  { change (self w3) with (self w2).
    rewrite (keeps_self_of _ _ _ _ (keeps_get_msg_type sc event) Hs).
    change (self (with_logs wp (logs wp ++ [DebugEvent event]))) with (self wp).
    rewrite (keeps_self_of _ _ _ _
               (keeps_event_loop sc all_users _ length pre) Hloop).
    now rewrite (keeps_self_of _ _ _ _ (keeps_load_directory sc) Hdir). }
  assert (Htest : forall v, self v = self w ->
                    message_from_listed_user event v = (Raise TypeError, v)).
  { intros v Hv. apply (message_from_listed_user_no_list event e0 u v H0 Hty Hu).
    now rewrite Hv. }
  split.
  - intros Hon.
    assert (Hcrash : random_reply sc event w3 = (Raise TypeError, w3)).
    { unfold random_reply. rewrite (try_except_raise _ _ w3 TypeError w3);
        [reflexivity|]. bind_with (Htest w3 Hself). reflexivity. }
    split; [exact Hcrash|].
    apply (begin_event_raises length w all_users pre tk rest event e0 s w1 wp w2
             TypeError w3); try assumption; try discriminate.
    fold sc w3. unfold run_behaviors.
    rewrite (bind_raise _ _ w3 TypeError w3); [reflexivity|].
    rewrite guarded_on by (now rewrite Hself). exact Hcrash.
  - intros w4 Hoff Hon Hpre.
    destruct (run_behaviors_fourth sc event s all_users w3 w4) as [Hrun Hself4];
      [now rewrite Hself | exact Hpre |].
    assert (Hcrash : magic_eight sc event w4 = (Raise TypeError, w4)).
    { unfold magic_eight. rewrite (try_except_raise _ _ w4 TypeError w4);
        [reflexivity|].
      rewrite (bind_raise _ _ w4 TypeError w4); [reflexivity|].
      apply Htest. now rewrite Hself4. }
    split; [exact Hcrash|].
    apply (begin_event_raises length w all_users pre tk rest event e0 s w1 wp w2
             TypeError w4); try assumption; try discriminate.
    fold sc w3. rewrite Hrun.
    rewrite (bind_raise _ _ w4 TypeError w4); [reflexivity|].
    rewrite guarded_on by (now rewrite Hself4, Hself). exact Hcrash.
Qed.


End Handler.

(** * The properties on the small workspace *)

(** The worked cases of the specification. *)

(** One suggestion for the one homophone of the text. *)
Example homophone_suggest_there :
  let sc := Demo.client true [] in
  let w := Demo.world (Demo.handler (Demo.flags false false false false true)
                         "All" None (Some {[ "there" := "their" ]})) in
  homophone_suggest Demo.strip_punctuation Demo.ascii_lower sc
    (Demo.message "D1" "U1" "Is there, a fix?") w
  = (Ok tt, with_calls w [SendMessage (Some "D1")
                            (homophone_message "U1" "there" "their")]).
Proof. vm_compute. reflexivity. Qed.

(** No suggestion from an empty table. *)
Example homophone_suggest_empty_table :
  let sc := Demo.client true [] in
  let w := Demo.world (Demo.handler (Demo.flags false false false false true)
                         "All" None (Some ∅)) in
  homophone_suggest Demo.strip_punctuation Demo.ascii_lower sc
    (Demo.message "D1" "U1" "is there a fix") w
  = (Ok tt, w).
Proof. vm_compute. reflexivity. Qed.

(** Ann Lee is a member of [G1]: naming her there notifies nobody. *)
Example talking_about_a_member :
  let sc := Demo.client true [] in
  let w := Demo.world (Demo.handler (Demo.flags false false true false false)
                         "All" None None) in
  someones_talking_about_you PyStr.find Demo.ascii_lower sc
    (Demo.message "G1" "U2" "ann lee is great") "Private" Demo.directory w
  = (Ok tt, with_calls w [ApiCall "conversations.members" [("channel", "G1")]]).
Proof. vm_compute. reflexivity. Qed.

(** Three events under 'DM Only': one without a channel, one in a public
    channel, one direct message from an allowed user. The loop survives
    the first, leaves the second alone and replies once to the third. *)
Example three_events_one_reply :
  let events := [ [ {[ "type" := "hello" ]} ];
                  Demo.message "C1" "U1" "hi all";
                  Demo.message "D1" "U1" "hi you" ] in
  let w := Demo.world (Demo.handler (Demo.flags true false false false false)
                         "DM Only" (Some ["U1"]) None) in
  let run := begin PyStr.find Demo.strip_punctuation
               (fun _ => Demo.client true events) Demo.giphy_search Demo.ascii_lower (-1) w in
  fst run = Ok tt
  /\ calls (snd run)
     = [ RtmConnect; ApiCall "users.list" [];
         ApiCall "im.info" [("channel", "C1")];
         ApiCall "groups.info" [("channel", "C1")];
         ApiCall "im.info" [("channel", "D1")];
         SendMessage (Some "D1") "Wow! That's so interesting!" ]
  /\ slept (snd run) = 2%nat.
Proof.
  intros events w run.
  split; [vm_compute; reflexivity|].
  split; vm_compute; reflexivity.
Qed.

(** An event without a ['type'] passes through all five behaviours: each
    logs it and returns, and the turn ends with its sleep. *)
Example untyped_event_is_absorbed :
  let sc := Demo.client true [] in
  let ev := Demo.untyped_event "D1" in
  let w := Demo.world (Demo.handler (Demo.flags true true true true true)
                         "All" (Some ["U1"]) (Some {[ "there" := "their" ]})) in
  let turn := handle_event PyStr.find Demo.strip_punctuation Demo.giphy_search Demo.ascii_lower
                sc ev Demo.directory w in
  let absorbed := [Debug "Don't worry about this one."; DebugEvent ev] in
  fst turn = Ok tt
  /\ calls (snd turn) = [ApiCall "im.info" [("channel", "D1")]]
  /\ logs (snd turn)
     = [DebugEvent ev; Debug "IM"] ++ absorbed ++ absorbed ++ absorbed
       ++ absorbed ++ absorbed
  /\ slept (snd turn) = 1%nat.
Proof.
  intros sc ev w turn absorbed.
  split; [vm_compute; reflexivity|].
  split; [vm_compute; reflexivity|].
  split; vm_compute; reflexivity.
Qed.

(** C1 at work under run level 'DM Only', with [random_reply],
    [mark_read] and [magic_eight] enabled. A question in the direct-message
    channel [D1] is dispatched: a reply is sent, the text is inspected and
    an answer of the magic eight ball follows. The same question in the
    private group [G1] is classified and then only logged as out of
    scope. *)
Lemma dispatch_gating_witness :
  let sc := Demo.client true [] in
  let w := Demo.world (Demo.handler (Demo.flags true true false true false)
                         "DM Only" (Some ["U1"]) None) in
  let asked := [ApiCall "im.info" [("channel", "G1")];
                ApiCall "groups.info" [("channel", "G1")]] in
  dispatch PyStr.find Demo.strip_punctuation Demo.giphy_search Demo.ascii_lower sc
    (Demo.message "D1" "U1" "hello?") Demo.directory w
  = (Ok tt,
     with_logs
       (with_calls w
          [ApiCall "im.info" [("channel", "D1")];
           SendMessage (Some "D1") "Wow! That's so interesting!";
           GiphySearch "magic eight ball";
           SendMessage (Some "D1")
             ("https://giphy.test/magic eight ball" +:+ PyStr.nl)])
       [Debug "IM"; Debug "Don't change"; Debug "TEXT: hello?"])
  /\ dispatch PyStr.find Demo.strip_punctuation Demo.giphy_search Demo.ascii_lower sc
       (Demo.message "G1" "U1" "hello?") Demo.directory w
     = (Ok tt, with_logs (with_calls w asked)
                 [Debug "Private"; Debug "Message not in scope."]).
Proof.
  intros sc w asked.
  assert (Hd : get_msg_type sc (Demo.message "D1" "U1" "hello?") w
               = (Ok "IM", with_calls w [ApiCall "im.info" [("channel", "D1")]]))
    by (vm_compute; reflexivity).
  assert (Hg : get_msg_type sc (Demo.message "G1" "U1" "hello?") w
               = (Ok "Private", with_calls w asked))
    by (vm_compute; reflexivity).
  split.
  - etransitivity.
    + exact (proj1 (dispatch_gating PyStr.find Demo.strip_punctuation
                      Demo.giphy_search Demo.ascii_lower sc _ Demo.directory w "IM" _
                      true true false true false Hd)
               (or_introl (conj eq_refl eq_refl))
               eq_refl eq_refl eq_refl eq_refl eq_refl).
    + vm_compute. reflexivity.
  - apply (proj2 (dispatch_gating PyStr.find Demo.strip_punctuation
                    Demo.giphy_search Demo.ascii_lower sc _ Demo.directory w "Private"
                    _ true true false true false Hg)).
    intros [[_ E]|[[E _]|E]]; discriminate E.
Defined.

(** C2 at work: [G1] is not a direct-message channel but is a private
    group, so both queries are made and the answer is 'Private'. *)
Lemma get_msg_type_fallback_witness :
  let sc := Demo.client true [] in
  let ev := Demo.message "G1" "U1" "hello" in
  let w := Demo.world (Demo.handler (Demo.flags false false false false false)
                         "All" None None) in
  ev !! 0%nat = Some (Demo.message_fields "G1" "U1" "hello")
  /\ get_msg_type sc ev w
     = (Ok "Private",
        with_calls w [ApiCall "im.info" [("channel", "G1")];
                      ApiCall "groups.info" [("channel", "G1")]]).
Proof.
  intros sc ev w. split; [reflexivity|].
  destruct (get_msg_type_fallback sc ev _ "G1" w eq_refl eq_refl)
    as [[E _]|[(_ & _ & H)|(_ & E & _)]];
    [discriminate E | exact H | discriminate E].
Defined.

(** C6 at work, on the text of the specification: a mention of another
    user is marked as read, in a direct-message channel with [im.mark]. *)
Lemma mark_read_heuristic_witness :
  let sc := Demo.client true [] in
  let ev := Demo.message "D1" "U2" "hi <@U1> there" in
  let w := Demo.world (Demo.handler (Demo.flags false true false false false)
                         "All" None None) in
  (PyStr.contains "<" "hi <@U1> there" /\ PyStr.contains ">" "hi <@U1> there"
   /\ ~ PyStr.contains "evan" "hi <@U1> there")
  /\ mark_read PyStr.find sc ev "IM" w
     = (Ok tt, with_calls w [ApiCall "im.mark" [("channel", "D1"); ("ts", "1.0")]]).
Proof.
  intros sc ev w.
  assert (Hh : PyStr.contains "<" "hi <@U1> there"
               /\ PyStr.contains ">" "hi <@U1> there"
               /\ ~ PyStr.contains "evan" "hi <@U1> there").
  { split; [exists "hi ", "@U1> there"; reflexivity|].
    split; [exists "hi <@U1", " there"; reflexivity|].
    intros Hc. apply find_present in Hc. apply Hc. reflexivity. }
  split; [exact Hh|].
  exact (proj1 (mark_read_heuristic PyStr.find find_present sc ev _
                  "hi <@U1> there" "D1" "1.0" "IM" w
                  eq_refl eq_refl eq_refl eq_refl eq_refl) Hh).
Defined.

(** C7 at work, in the private group [G1] whose only member is Ann Lee
    ([U1]): naming Bob Roy, who is not a member, sends one message to the
    notify channel [G9]. *)
Lemma talking_notifies_absent_witness :
  let sc := Demo.client true [] in
  let ev := Demo.message "G1" "U1" "Bob Roy is great" in
  let w := Demo.world (Demo.handler (Demo.flags false false true false false)
                         "All" None None) in
  (exists user, In user Demo.directory
                /\ PyStr.contains
                     (Demo.ascii_lower (first_name user) +:+ " " +:+
                      Demo.ascii_lower (last_name user))
                     (Demo.ascii_lower "Bob Roy is great")
                /\ ~ In (id user) ["U1"])
  /\ someones_talking_about_you PyStr.find Demo.ascii_lower sc ev "Private" Demo.directory w
     = (Ok tt,
        with_calls w
          [ApiCall "conversations.members" [("channel", "G1")];
           SendMessage (Some "G9")
             (talking_message ["U2"] ["U1"] "U1" "Bob Roy is great")]).
Proof.
  intros sc ev w.
  assert (Hbob : exists user, In user Demo.directory
                   /\ PyStr.contains
                        (Demo.ascii_lower (first_name user) +:+ " " +:+
                         Demo.ascii_lower (last_name user))
                        (Demo.ascii_lower "Bob Roy is great")
                   /\ ~ In (id user) ["U1"]).
  { exists {| name := "bob"; id := "U2"; first_name := "Bob"; last_name := "Roy" |}.
    split; [right; left; reflexivity|].
    split; [exists "", " is great"; reflexivity|].
    intros [E|[]]. discriminate E. }
  split; [exact Hbob|].
  exact (proj1 (talking_notifies_absent PyStr.find Demo.ascii_lower find_present sc ev _
                  "Bob Roy is great" "G1" (Some "U1") "Private" Demo.directory
                  ["U1"] w
                  eq_refl eq_refl eq_refl eq_refl eq_refl
                  ltac:(discriminate) eq_refl) Hbob).
Defined.

(** C7 fails on the same text in the same group, in a message that does
    not name its sender (a bot's, say). Bob Roy is named and is
    not a member, yet no notification is sent: after the members are asked
    for, the behaviour raises [KeyError] for 'user'. *)
Lemma unnamed_sender_sends_no_notification :
  let sc := Demo.client true [] in
  let ev := Demo.anonymous_message "G1" "Bob Roy is great" in
  let w := Demo.world (Demo.handler (Demo.flags false false true false false)
                         "All" None None) in
  (exists user, In user Demo.directory
                /\ PyStr.contains
                     (Demo.ascii_lower (first_name user) +:+ " " +:+
                      Demo.ascii_lower (last_name user))
                     (Demo.ascii_lower "Bob Roy is great")
                /\ ~ In (id user) ["U1"])
  /\ api_answer sc [] "conversations.members" [("channel", "G1")] !! "members"
     = Some (PStrs ["U1"])
  /\ someones_talking_about_you PyStr.find Demo.ascii_lower sc ev "Private" Demo.directory w
     = (Raise (KeyError "user"),
        with_calls w [ApiCall "conversations.members" [("channel", "G1")]]).
Proof.
  intros sc ev w. split.
  - exists {| name := "bob"; id := "U2"; first_name := "Bob"; last_name := "Roy" |}.
    split; [right; left; reflexivity|].
    split; [exists "", " is great"; reflexivity|].
    intros [E|[]]. discriminate E.
  - split; vm_compute; reflexivity.
Qed.

(** C8 at work on the default pool. *)
Lemma add_responses_pool_witness :
  let w := Demo.world (Demo.handler (Demo.flags true false false false false)
                         "All" None None) in
  In "Curious" (responses (self w))
  /\ responses (self (snd (add_responses (NRStr "Curious") w))) = default_responses
  /\ NoDup (responses (self (snd (add_responses (NRList ["Curious"; "Fine."]) w))))
  /\ In "Fine."
       (responses (self (snd (add_responses (NRList ["Curious"; "Fine."]) w)))).
Proof.
  intros w.
  assert (Hin : In "Curious" (responses (self w)))
    by (do 3 right; left; reflexivity).
  destruct (add_responses_pool w "Curious" ["Curious"; "Fine."] Hin)
    as (Hsame & _ & Hnodup & Hall).
  split; [exact Hin|]. split; [exact Hsame|]. split; [exact Hnodup|].
  apply (proj2 (Hall "Fine.")). right. right. left. reflexivity.
Defined.

(** C4 at work, on a handler built with [homophone_flg] set: its table is
    loaded, and switching [mark_read_flg] on clears it. *)
Lemma update_flag_homophones_witness :
  let w := snd (init Demo.load_homophones (fun _ => Demo.client true [])
                  "xoxp-test" false false false false false false true
                  "All" (UsersList ["U1"]) None None None
                  (Demo.world (Demo.handler ∅ "" None None))) in
  homophones (self w) = Some {[ "there" := "their" ]}
  /\ handler_flags (self w) !! "mark_read_flg" = Some false
  /\ fst (update_flag Demo.load_homophones "mark_read_flg" true w) = Ok tt
  /\ homophones (self (snd (update_flag Demo.load_homophones "mark_read_flg" true w)))
     = None.
Proof.
  intros w.
  assert (Hold : handler_flags (self w) !! "mark_read_flg" = Some false)
    by reflexivity.
  destruct (update_flag_homophones Demo.load_homophones w "mark_read_flg"
              false true Hold) as (Hok & _ & _ & Hclear).
  split; [reflexivity|]. split; [exact Hold|]. split; [exact Hok|].
  apply Hclear. discriminate.
Defined.

(** C5 fails on a client that does not connect: [begin] returns as if
    nothing had happened, with no exception and no log line. *)
Lemma begin_returns_silently_when_not_connected :
  let sc := Demo.client false [Demo.message "D1" "U1" "hello"] in
  let w := Demo.world (Demo.handler (Demo.flags true true true true false)
                         "All" (Some ["U1"]) None) in
  rtm_connect_result sc = Ok false
  /\ begin PyStr.find Demo.strip_punctuation (fun _ => sc) Demo.giphy_search Demo.ascii_lower 60 w
     = (Ok tt, with_calls w [RtmConnect])
  /\ ~ (exists e, fst (begin PyStr.find Demo.strip_punctuation (fun _ => sc)
                         Demo.giphy_search Demo.ascii_lower 60 w) = Raise e).
Proof.
  intros sc w. split; [reflexivity|].
  assert (H : begin PyStr.find Demo.strip_punctuation (fun _ => sc)
                Demo.giphy_search Demo.ascii_lower 60 w = (Ok tt, with_calls w [RtmConnect]))
    by (vm_compute; reflexivity).
  split; [exact H|]. rewrite H. intros [e E]. discriminate E.
Qed.

(** C5, as the code has it, on the same client. *)
Lemma begin_connection_failure_witness :
  let sc := Demo.client false [Demo.message "D1" "U1" "hello"] in
  let w := Demo.world (Demo.handler (Demo.flags true true true true false)
                         "All" (Some ["U1"]) None) in
  rtm_connect_result sc = Ok false
  /\ begin PyStr.find Demo.strip_punctuation (fun _ => sc) Demo.giphy_search Demo.ascii_lower 60 w
     = (Ok tt, with_calls w [RtmConnect]).
Proof.
  intros sc w. split; [reflexivity|].
  exact (begin_connection_failure PyStr.find Demo.strip_punctuation
           (fun _ => sc) Demo.giphy_search Demo.ascii_lower 60 w (Ok false) eq_refl
           ltac:(discriminate)).
Defined.

(** C3 fails on a message that does not name its sender, with
    [random_reply] and [mark_read] enabled: [random_reply] raises for the
    missing ['user'], the event has a ['type'] so the error is raised
    again, and the loop drops the whole event. [mark_read], which would
    have marked the channel, is never invoked. *)
Lemma reraised_KeyError_skips_later_behaviours :
  let sc := Demo.client true [] in
  let ev := Demo.anonymous_message "D1" "<hi>" in
  let w := Demo.world (Demo.handler (Demo.flags true true false false false)
                         "All" (Some ["U1"]) None) in
  let turn := handle_event PyStr.find Demo.strip_punctuation Demo.giphy_search Demo.ascii_lower
                sc ev Demo.directory w in
  fst (random_reply Demo.giphy_search sc ev w) = Raise (KeyError "user")
  /\ calls (snd (mark_read PyStr.find sc ev "IM" w))
     = [ApiCall "im.mark" [("channel", "D1"); ("ts", "1.0")]]
  /\ fst turn = Ok tt
  /\ calls (snd turn) = [ApiCall "im.info" [("channel", "D1")]]
  /\ logs (snd turn) = [DebugEvent ev; Debug "IM"; DebugIgnored ev].
Proof.
  intros sc ev w turn.
  split; [vm_compute; reflexivity|].
  split; [vm_compute; reflexivity|].
  split; [vm_compute; reflexivity|].
  split; vm_compute; reflexivity.
Qed.

(** C3, as the code has it, on the same event: the loop logs it as ignored
    and reaches the end of its turns. *)
Lemma missing_field_handling_witness :
  let sc := Demo.client true [] in
  let ev := Demo.anonymous_message "D1" "<hi>" in
  let w := Demo.world (Demo.handler (Demo.flags true true false false false)
                         "All" (Some ["U1"]) None) in
  let w' := with_logs (with_calls w [ApiCall "im.info" [("channel", "D1")]])
              [DebugEvent ev; Debug "IM"] in
  dispatch PyStr.find Demo.strip_punctuation Demo.giphy_search Demo.ascii_lower sc ev
    Demo.directory (with_logs w [DebugEvent ev])
  = (Raise (KeyError "user"), w')
  /\ event_loop PyStr.find Demo.strip_punctuation Demo.giphy_search Demo.ascii_lower sc
       Demo.directory 0 (-1) [Demo.tick ev] w
     = (Ok tt, with_logs w' [DebugEvent ev; Debug "IM"; DebugIgnored ev]).
Proof.
  intros sc ev w w'.
  assert (Hd : dispatch PyStr.find Demo.strip_punctuation Demo.giphy_search Demo.ascii_lower sc ev
                 Demo.directory (with_logs w [DebugEvent ev])
               = (Raise (KeyError "user"), w'))
    by (vm_compute; reflexivity).
  split; [exact Hd|].
  exact (proj2 (proj2 (missing_field_handling PyStr.find Demo.strip_punctuation
                         Demo.giphy_search Demo.ascii_lower sc ev _ Demo.directory 0 (-1)
                         (Demo.tick ev) [] w eq_refl eq_refl eq_refl eq_refl)
                  "user" w' Hd)).
Defined.



(** C10 at work on a stream that opens with the event [begin] ignores and
    goes on with a message. A handler built without an allow-list and
    with [random_reply_flg] set ends with a [TypeError] raised by
    [random_reply]; one built with [mark_read_flg] and [magic_eight_flg]
    set ends with that of [magic_eight], after [mark_read] has returned. *)
Lemma missing_allow_list_crash_witness :
  let ev := Demo.message "D1" "U1" "hello" in
  let new_client := fun _ : string => Demo.client true [Demo.hello; ev] in
  let replying := snd (init Demo.load_homophones new_client
                         "xoxp-test" true false false false false false false
                         "All" UsersNone None None None
                         (Demo.world (Demo.handler ∅ "" None None))) in
  let answering := snd (init Demo.load_homophones new_client
                          "xoxp-test" false false false true false true false
                          "All" UsersNone None None None
                          (Demo.world (Demo.handler ∅ "" None None))) in
  users (self replying) = None
  /\ fst (begin PyStr.find Demo.strip_punctuation new_client Demo.giphy_search Demo.ascii_lower
            (-1) replying) = Raise TypeError
  /\ users (self answering) = None
  /\ begin PyStr.find Demo.strip_punctuation new_client Demo.giphy_search Demo.ascii_lower
       (-1) answering
     = (Raise TypeError,
        with_logs
          (with_calls answering
             [RtmConnect; ApiCall "users.list" [];
              ApiCall "im.info" [("channel", "D1")]])
          [DebugEvent Demo.hello; DebugIgnored Demo.hello; DebugEvent ev;
           Debug "IM"; Debug "Don't change"]).
Proof.
  intros ev new_client replying answering.
  split; [reflexivity|]. split.
  - set (w1 := with_calls replying [RtmConnect; ApiCall "users.list" []]).
    set (wp := with_logs w1 [DebugEvent Demo.hello; DebugIgnored Demo.hello]).
    set (w2 := with_logs
                 (with_calls replying [RtmConnect; ApiCall "users.list" [];
                                       ApiCall "im.info" [("channel", "D1")]])
                 [DebugEvent Demo.hello; DebugIgnored Demo.hello; DebugEvent ev]).
    destruct (missing_allow_list_crash PyStr.find Demo.strip_punctuation
                new_client Demo.giphy_search Demo.ascii_lower replying (-1)
                Demo.directory [Demo.tick Demo.hello] (Demo.tick ev) []
                ev (Demo.message_fields "D1" "U1" "hello") "U1" "IM" w1 wp w2)
      as [Hreply _];
      lazymatch goal with
      | |- fst _ = _ => idtac
      | |- Forall _ _ => repeat constructor
      | |- _ => first [reflexivity | vm_compute; reflexivity]
      end.
    destruct (Hreply eq_refl) as [_ Hbegin]. rewrite Hbegin. reflexivity.
  - split; [reflexivity|].
    set (w1 := with_calls answering [RtmConnect; ApiCall "users.list" []]).
    set (wp := with_logs w1 [DebugEvent Demo.hello; DebugIgnored Demo.hello]).
    set (w2 := with_logs
                 (with_calls answering [RtmConnect; ApiCall "users.list" [];
                                        ApiCall "im.info" [("channel", "D1")]])
                 [DebugEvent Demo.hello; DebugIgnored Demo.hello; DebugEvent ev]).
    set (w4 := with_logs w2 [DebugEvent Demo.hello; DebugIgnored Demo.hello;
                             DebugEvent ev; Debug "IM"; Debug "Don't change"]).
    destruct (missing_allow_list_crash PyStr.find Demo.strip_punctuation
                new_client Demo.giphy_search Demo.ascii_lower answering (-1)
                Demo.directory [Demo.tick Demo.hello] (Demo.tick ev) []
                ev (Demo.message_fields "D1" "U1" "hello") "U1" "IM" w1 wp w2)
      as [_ Hanswer];
      lazymatch goal with
      | |- begin _ _ _ _ _ _ _ = _ => idtac
      | |- Forall _ _ => repeat constructor
      | |- _ => first [reflexivity | vm_compute; reflexivity]
      end.
    destruct (Hanswer w4 eq_refl eq_refl ltac:(vm_compute; reflexivity))
      as [_ Hbegin].
    exact Hbegin.
Defined.

(** C10 fails with no allow-list, [magic_eight_flg] and
    [someones_talking_about_you_flg] enabled, and a well-formed message in
    the private group [G1] that names Bob Roy, read from a client to which
    [conversations.members] is refused. [someones_talking_about_you]
    raises [KeyError] for 'members', the loop ignores the event before
    [magic_eight] is reached, and [begin] returns. *)
Lemma refused_members_spare_the_loop :
  let ev := Demo.message "G1" "U1" "is bob roy in?" in
  let new_client := fun _ : string => Demo.refused_client [ev] in
  let w := snd (init Demo.load_homophones new_client
                  "xoxp-test" false false false false true true false
                  "All" UsersNone None None None
                  (Demo.world (Demo.handler ∅ "" None None))) in
  let done := begin PyStr.find Demo.strip_punctuation new_client Demo.giphy_search
                Demo.ascii_lower (-1) w in
  users (self w) = None
  /\ handler_flags (self w) !! "magic_eight_flg" = Some true
  /\ in_scope (run_level (self w)) "Private" = true
  /\ fst done = Ok tt
  /\ calls (snd done)
     = [RtmConnect; ApiCall "users.list" [];
        ApiCall "im.info" [("channel", "G1")];
        ApiCall "groups.info" [("channel", "G1")];
        ApiCall "conversations.members" [("channel", "G1")]]
  /\ logs (snd done)
     = [DebugEvent ev; Debug "Private"; DebugIgnored ev;
        Debug ("Event handling completed." +:+ PyStr.nl +:+
               "Stopping Slack monitor.")].
Proof.
  intros ev new_client w done.
  repeat (split; [vm_compute; reflexivity|]). vm_compute. reflexivity.
Qed.

(** * The further properties on the small workspace *)

Lemma demo_configured rr mr talk me hs level allowed table :
  configured (self (Demo.world (Demo.handler (Demo.flags rr mr talk me hs)
                                  level allowed table))).
Proof.
  split; [|discriminate]. intros flag_name.
  apply (flags_of_init_iff rr false false mr talk me hs).
Qed.

(** X1 at work: there is no flag ['typing_flg']. *)
Lemma update_flag_unrecognized_witness :
  let w := Demo.world (Demo.handler (Demo.flags true false false false false)
                         "All" None None) in
  handler_flags (self w) !! "typing_flg" = None
  /\ exists message,
       update_flag Demo.load_homophones "typing_flg" true w
       = (Raise (InvalidFlagNameException message), with_logs w [Error message]).
Proof.
  intros w. split; [reflexivity|].
  exact (update_flag_unrecognized Demo.load_homophones w "typing_flg" true eq_refl).
Defined.

(** X2 at work: switching [magic_eight_flg] on. *)
Lemma update_flag_frame_witness :
  let w := Demo.world (Demo.handler (Demo.flags true false false false false)
                         "All" (Some ["U1"]) None) in
  let w' := snd (update_flag Demo.load_homophones "magic_eight_flg" true w) in
  handler_flags (self w) !! "magic_eight_flg" = Some false
  /\ handler_flags (self w') !! "magic_eight_flg" = Some true
  /\ handler_flags (self w') !! "random_reply_flg" = Some true
  /\ users (self w') = Some ["U1"]
  /\ calls w' = [].
Proof.
  intros w w'.
  assert (Hold : handler_flags (self w) !! "magic_eight_flg" = Some false)
    by reflexivity.
  destruct (update_flag_frame Demo.load_homophones w "magic_eight_flg" false true
              Hold) as (_ & Hset & Hothers & _ & Husers & _ & _ & Hcalls & _).
  split; [exact Hold|]. split; [exact Hset|].
  split; [exact (Hothers "random_reply_flg" ltac:(discriminate))|].
  split; [exact Husers | exact Hcalls].
Defined.

(** X3 at work on the default pool. *)
Lemma add_responses_appends_witness :
  let w := Demo.world (Demo.handler (Demo.flags true false false false false)
                         "All" None None) in
  responses (self (snd (add_responses (NRStr "Fine.") w)))
  = default_responses ++ ["Fine."].
Proof.
  intros w.
  assert (Hnew : ~ In "Fine." (responses (self w))).
  { intros H. repeat (destruct H as [H|H]; [discriminate H|]). exact H. }
  rewrite (add_responses_appends w "Fine." Hnew). reflexivity.
Defined.

(** X5 at work: built with an empty list of responses, the handler has
    the default pool. *)
Lemma init_configured_witness :
  let w' := snd (init Demo.load_homophones (fun _ => Demo.client true [])
                   "xoxp-test" true false false false false false false
                   "All" UsersNone (Some []) None None
                   (Demo.world (Demo.handler ∅ "" None None))) in
  configured (self w') /\ responses (self w') = default_responses.
Proof.
  intros w'.
  destruct (init_configured Demo.load_homophones (fun _ => Demo.client true [])
              "xoxp-test" true false false false false false false
              "All" UsersNone (Some []) None None
              (Demo.world (Demo.handler ∅ "" None None)) eq_refl)
    as [Hconf Hdefault].
  split; [exact Hconf|]. apply Hdefault. right. reflexivity.
Defined.

(** X6 at work: an unknown flag and a known reply change nothing. *)
Lemma configured_preserved_witness :
  let w := Demo.world (Demo.handler (Demo.flags true false false false false)
                         "All" None None) in
  configured (self (snd (update_flag Demo.load_homophones "typing_flg" true w)))
  /\ configured (self (snd (add_responses (NRList []) w))).
Proof.
  intros w.
  exact (configured_preserved Demo.load_homophones w "typing_flg" true (NRList [])
           (demo_configured true false false false false "All" None None)).
Defined.

(** X7 at work: ['set_typing_flg'] is one of the seven. *)
Lemma update_flag_succeeds_iff_witness :
  let w := Demo.world (Demo.handler (Demo.flags true false false false false)
                         "All" None None) in
  fst (update_flag Demo.load_homophones "set_typing_flg" true w) = Ok tt
  <-> In "set_typing_flg" flag_names.
Proof.
  intros w.
  exact (update_flag_succeeds_iff Demo.load_homophones w "set_typing_flg" true
           (demo_configured true false false false false "All" None None)).
Defined.

(** X8 at work: a typing notice. *)
Lemma other_event_types_ignored_witness :
  let sc := Demo.client true [] in
  let e0 : gmap string string :=
    {[ "type" := "user_typing"; "channel" := "D1"; "user" := "U1" ]} in
  let w := Demo.world (Demo.handler (Demo.flags true true true true true)
                         "All" (Some ["U1"]) None) in
  e0 !! "type" = Some "user_typing"
  /\ random_reply Demo.giphy_search sc [e0] w = (Ok tt, w)
  /\ mark_read PyStr.find sc [e0] "IM" w = (Ok tt, w)
  /\ someones_talking_about_you PyStr.find Demo.ascii_lower sc [e0] "IM" Demo.directory w = (Ok tt, w)
  /\ magic_eight PyStr.find Demo.giphy_search sc [e0] w = (Ok tt, w).
Proof.
  intros sc e0 w. split; [reflexivity|].
  exact (other_event_types_ignored PyStr.find Demo.giphy_search Demo.ascii_lower sc [e0] e0
           "user_typing" "IM" Demo.directory w eq_refl eq_refl
           ltac:(discriminate)).
Defined.

(** X9 at work: [U2] is not in the allow-list. *)
Lemma unlisted_sender_ignored_witness :
  let sc := Demo.client true [] in
  let ev := Demo.message "D1" "U2" "is it?" in
  let w := Demo.world (Demo.handler (Demo.flags true false false true false)
                         "All" (Some ["U1"]) None) in
  ~ In "U2" ["U1"]
  /\ random_reply Demo.giphy_search sc ev w = (Ok tt, w)
  /\ magic_eight PyStr.find Demo.giphy_search sc ev w = (Ok tt, w).
Proof.
  intros sc ev w.
  assert (Hout : ~ In "U2" ["U1"]) by (intros [E|[]]; discriminate E).
  split; [exact Hout|].
  exact (unlisted_sender_ignored PyStr.find Demo.giphy_search sc ev
           (Demo.message_fields "D1" "U2" "is it?") "U2" ["U1"] w
           eq_refl eq_refl eq_refl eq_refl Hout).
Defined.

(** X10 at work. *)
Lemma random_reply_sends_pool_member_witness :
  let sc := Demo.client true [] in
  let ev := Demo.message "D1" "U1" "hello" in
  let w := Demo.world (Demo.handler (Demo.flags true false false false false)
                         "All" (Some ["U1"]) None) in
  exists message,
    In message default_responses
    /\ fst (random_reply Demo.giphy_search sc ev w) = Ok tt
    /\ calls (snd (random_reply Demo.giphy_search sc ev w))
       = [SendMessage (Some "D1") message]
    /\ logs (snd (random_reply Demo.giphy_search sc ev w)) = []
    /\ self (snd (random_reply Demo.giphy_search sc ev w)) = self w.
Proof.
  intros sc ev w.
  exact (random_reply_sends_pool_member Demo.giphy_search sc ev
           (Demo.message_fields "D1" "U1" "hello") "U1" "D1" ["U1"] w
           eq_refl eq_refl eq_refl eq_refl eq_refl
           (or_introl eq_refl) eq_refl ltac:(discriminate)).
Defined.

(** X11 at work: the search of the workspace has one result for every
    term, so the reply goes out with it. *)
Lemma random_reply_with_gif_witness :
  let sc := Demo.client true [] in
  let ev := Demo.message "D1" "U1" "hello" in
  let w := Demo.world
             (Demo.handler
                (<["random_gif_flg" := true]>
                   (Demo.flags true false false false false))
                "All" (Some ["U1"]) None) in
  exists message,
    In message default_responses
    /\ match Demo.giphy_search message with
       | [] =>
           fst (random_reply Demo.giphy_search sc ev w) = Raise IndexError
           /\ calls (snd (random_reply Demo.giphy_search sc ev w))
              = [GiphySearch message]
       | v :: _ =>
           fst (random_reply Demo.giphy_search sc ev w) = Ok tt
           /\ calls (snd (random_reply Demo.giphy_search sc ev w))
              = [GiphySearch message;
                 SendMessage (Some "D1") (message +:+ PyStr.nl +:+ v)]
       end.
Proof.
  intros sc ev w.
  exact (random_reply_with_gif Demo.giphy_search sc ev
           (Demo.message_fields "D1" "U1" "hello") "U1" "D1" ["U1"] w
           eq_refl eq_refl eq_refl eq_refl eq_refl
           (or_introl eq_refl) eq_refl ltac:(discriminate)).
Defined.

(** X12 at work. *)
Lemma magic_eight_question_witness :
  let sc := Demo.client true [] in
  let ev := Demo.message "D1" "U1" "really?" in
  let w := Demo.world (Demo.handler (Demo.flags false false false true false)
                         "All" (Some ["U1"]) None) in
  0 <= PyStr.find "really?" "?"
  /\ exists r,
       0 <= r <= 10
       /\ match Demo.giphy_search "magic eight ball" !! Z.to_nat r with
          | Some v =>
              fst (magic_eight PyStr.find Demo.giphy_search sc ev w) = Ok tt
              /\ calls (snd (magic_eight PyStr.find Demo.giphy_search sc ev w))
                 = [GiphySearch "magic eight ball";
                    SendMessage (Some "D1") (v +:+ PyStr.nl)]
              /\ logs (snd (magic_eight PyStr.find Demo.giphy_search sc ev w))
                 = [Debug "TEXT: really?"]
          | None =>
              fst (magic_eight PyStr.find Demo.giphy_search sc ev w)
              = Raise IndexError
              /\ calls (snd (magic_eight PyStr.find Demo.giphy_search sc ev w))
                 = [GiphySearch "magic eight ball"]
              /\ logs (snd (magic_eight PyStr.find Demo.giphy_search sc ev w)) = []
          end.
Proof.
  intros sc ev w.
  assert (Hq : 0 <= PyStr.find "really?" "?") by (vm_compute; discriminate).
  split; [exact Hq|].
  exact (magic_eight_question PyStr.find Demo.giphy_search sc ev
           (Demo.message_fields "D1" "U1" "really?") "U1" "D1" "really?" ["U1"] w
           eq_refl eq_refl eq_refl eq_refl eq_refl eq_refl
           (or_introl eq_refl) Hq).
Defined.

(** X13 at work. *)
Lemma magic_eight_no_question_witness :
  let sc := Demo.client true [] in
  let ev := Demo.message "D1" "U1" "really" in
  let w := Demo.world (Demo.handler (Demo.flags false false false true false)
                         "All" (Some ["U1"]) None) in
  PyStr.find "really" "?" < 0
  /\ fst (magic_eight PyStr.find Demo.giphy_search sc ev w) = Ok tt
  /\ calls (snd (magic_eight PyStr.find Demo.giphy_search sc ev w)) = []
  /\ logs (snd (magic_eight PyStr.find Demo.giphy_search sc ev w))
     = [Debug "No question mark found"].
Proof.
  intros sc ev w.
  assert (Hq : PyStr.find "really" "?" < 0) by reflexivity.
  split; [exact Hq|].
  exact (magic_eight_no_question PyStr.find Demo.giphy_search sc ev
           (Demo.message_fields "D1" "U1" "really") "U1" "really" ["U1"] w
           eq_refl eq_refl eq_refl eq_refl eq_refl
           (or_introl eq_refl) Hq).
Defined.

(** X14 at work: two homophones, one of them twice and once in capitals;
    the sender is on no allow-list. *)
Lemma homophone_suggest_messages_witness :
  let sc := Demo.client true [] in
  let ev := Demo.message "C1" "U2" "There, your fix is there!" in
  let table : gmap string string :=
    {[ "there" := "their"; "your" := "you're" ]} in
  let w := Demo.world (Demo.handler (Demo.flags false false false false true)
                         "All" (Some ["U1"]) (Some table)) in
  homophone_suggest Demo.strip_punctuation Demo.ascii_lower sc ev w
  = (Ok tt,
     with_calls w
       [SendMessage (Some "C1") (homophone_message "U2" "there" "their");
        SendMessage (Some "C1") (homophone_message "U2" "your" "you're");
        SendMessage (Some "C1") (homophone_message "U2" "there" "their")]).
Proof.
  intros sc ev table w.
  rewrite (homophone_suggest_messages Demo.strip_punctuation Demo.ascii_lower sc ev
             (Demo.message_fields "C1" "U2" "There, your fix is there!")
             "U2" "C1" "There, your fix is there!" table w
             eq_refl eq_refl eq_refl eq_refl eq_refl).
  vm_compute. reflexivity.
Defined.

(** X15 at work. *)
Lemma talking_in_public_does_nothing_witness :
  let sc := Demo.client true [] in
  let ev := Demo.message "C1" "U1" "bob roy is great" in
  let w := Demo.world (Demo.handler (Demo.flags false false true false false)
                         "All" None None) in
  someones_talking_about_you PyStr.find Demo.ascii_lower sc ev "Public" Demo.directory w = (Ok tt, w).
Proof.
  intros sc ev w.
  exact (talking_in_public_does_nothing PyStr.find Demo.ascii_lower sc ev
           (Demo.message_fields "C1" "U1" "bob roy is great") "message"
           Demo.directory w eq_refl eq_refl).
Defined.

(** X16 at work: a message that was deleted carries no text. *)
Lemma message_without_text_raises_witness :
  let sc := Demo.client true [] in
  let e0 : gmap string string :=
    {[ "type" := "message"; "subtype" := "message_deleted"; "channel" := "G1";
       "ts" := "1.0" ]} in
  let w := Demo.world (Demo.handler (Demo.flags false true true false true)
                         "All" None (Some ∅)) in
  e0 !! "text" = None
  /\ mark_read PyStr.find sc [e0] "Private" w = (Raise (KeyError "text"), w)
  /\ someones_talking_about_you PyStr.find Demo.ascii_lower sc [e0] "Private" Demo.directory w
     = (Raise (KeyError "text"), w)
  /\ homophone_suggest Demo.strip_punctuation Demo.ascii_lower sc [e0] w
     = (Raise (KeyError "text"), w).
Proof.
  intros sc e0 w. split; [reflexivity|].
  destruct (message_without_text_raises PyStr.find Demo.strip_punctuation Demo.ascii_lower sc [e0]
              e0 "Private" Demo.directory w eq_refl eq_refl eq_refl)
    as (Hmark & Htalk & Hsuggest).
  split; [exact Hmark|]. split; [|exact Hsuggest].
  apply Htalk. discriminate.
Defined.

(** X17 at work: the greeting of the stream has no channel. *)
Lemma turn_without_channel_ignored_witness :
  let sc := Demo.client true [] in
  let e0 : gmap string string := {[ "type" := "hello" ]} in
  let w := Demo.world (Demo.handler (Demo.flags true true true true true)
                         "All" (Some ["U1"]) None) in
  e0 !! "channel" = None
  /\ handle_event PyStr.find Demo.strip_punctuation Demo.giphy_search Demo.ascii_lower sc [e0]
       Demo.directory w
     = (Ok tt, with_logs w [DebugEvent [e0]; DebugIgnored [e0]]).
Proof.
  intros sc e0 w. split; [reflexivity|].
  exact (turn_without_channel_ignored PyStr.find Demo.strip_punctuation
           Demo.giphy_search Demo.ascii_lower sc [e0] e0 Demo.directory w eq_refl eq_refl).
Defined.

(** X18 at work: three idle turns. *)
Lemma idle_polling_witness :
  let sc := Demo.client true [] in
  let w := Demo.world (Demo.handler (Demo.flags true true true true true)
                         "All" (Some ["U1"]) None) in
  event_loop PyStr.find Demo.strip_punctuation Demo.giphy_search Demo.ascii_lower sc
    Demo.directory 0 (-1) [Demo.tick []; Demo.tick []; Demo.tick []] w
  = (Ok tt, {| self := self w; calls := []; logs := []; rand := [];
               slept := 3 |}).
Proof.
  intros sc w.
  apply (idle_polling PyStr.find Demo.strip_punctuation Demo.giphy_search Demo.ascii_lower sc
           Demo.directory 0 (-1) [Demo.tick []; Demo.tick []; Demo.tick []] w).
  repeat (constructor; [split; [reflexivity | split; reflexivity] |]).
  constructor.
Defined.

(** X19 at work: a greeting, a message without text and a message. *)
Lemma event_loop_no_KeyError_witness :
  let sc := Demo.client true [] in
  let w := Demo.world (Demo.handler (Demo.flags true true true true true)
                         "All" (Some ["U1"]) None) in
  let ticks := [ Demo.tick [ {[ "type" := "hello" ]} ];
                 Demo.tick [ {[ "type" := "message"; "channel" := "D1" ]} ];
                 Demo.tick (Demo.message "D1" "U2" "hello") ] in
  fst (event_loop PyStr.find Demo.strip_punctuation Demo.giphy_search Demo.ascii_lower sc
         Demo.directory 0 (-1) ticks w)
  <> Raise (KeyError "text").
Proof.
  intros sc w ticks.
  apply (event_loop_no_KeyError PyStr.find Demo.strip_punctuation
           Demo.giphy_search Demo.ascii_lower sc Demo.directory 0 (-1) ticks w "text").
  repeat (constructor; [intros k'; discriminate |]). constructor.
Defined.

(** X20 at work: a client whose every answer is an error. *)
Lemma begin_without_user_list_witness :
  let refused : SlackClient :=
    {| rtm_connect_result := Ok true; server_username := "evan";
       api_answer := fun _ _ _ => Demo.ok_answer false;
       rtm_ticks := [Demo.tick (Demo.message "D1" "U1" "hello")];
       time_start := 0; time_end := 1 |} in
  let w := Demo.world (Demo.handler (Demo.flags true true true true true)
                         "All" (Some ["U1"]) None) in
  Demo.ok_answer false !! "members" = None
  /\ begin PyStr.find Demo.strip_punctuation (fun _ => refused) Demo.giphy_search Demo.ascii_lower
       (-1) w
     = (Raise (KeyError "members"),
        with_calls w [RtmConnect; ApiCall "users.list" []]).
Proof.
  intros refused w. split; [reflexivity|].
  exact (begin_without_user_list PyStr.find Demo.strip_punctuation
           (fun _ => refused) Demo.giphy_search Demo.ascii_lower (-1) w eq_refl eq_refl).
Defined.

(** X21 at work: the interrupt arrives while the first event is read. *)
Lemma begin_interrupted_witness :
  let interrupted : SlackClient :=
    {| rtm_connect_result := Ok true; server_username := "evan";
       api_answer := Demo.answer;
       rtm_ticks := [ {| tk_connected := true; tk_time := 0;
                         tk_read := Raise KeyboardInterrupt |} ];
       time_start := 0; time_end := 1 |} in
  let w := Demo.world (Demo.handler (Demo.flags true true true true true)
                         "All" (Some ["U1"]) None) in
  let w1 := with_calls w [RtmConnect; ApiCall "users.list" []] in
  load_directory interrupted (with_calls w [RtmConnect]) = (Ok Demo.directory, w1)
  /\ begin PyStr.find Demo.strip_punctuation (fun _ => interrupted)
       Demo.giphy_search Demo.ascii_lower (-1) w
     = (Raise KeyboardInterrupt,
        with_logs w1 [Debug "Stopping Slack monitor."]).
Proof.
  intros interrupted w w1.
  assert (Hdir : load_directory interrupted (with_calls w [RtmConnect])
                 = (Ok Demo.directory, w1)) by (vm_compute; reflexivity).
  split; [exact Hdir|].
  exact (begin_interrupted PyStr.find Demo.strip_punctuation (fun _ => interrupted)
           Demo.giphy_search Demo.ascii_lower (-1) w Demo.directory w1 w1 eq_refl Hdir eq_refl).
Defined.

(** X22 at work: an unbounded run whose server is gone at once. *)
Lemma begin_returns_witness :
  let gone : SlackClient :=
    {| rtm_connect_result := Ok true; server_username := "evan";
       api_answer := Demo.answer;
       rtm_ticks := [ {| tk_connected := false; tk_time := 0;
                         tk_read := Ok (Demo.message "D1" "U1" "hello") |} ];
       time_start := 0; time_end := 0 |} in
  let w := Demo.world (Demo.handler (Demo.flags true true true true true)
                         "All" (Some ["U1"]) None) in
  let w1 := with_calls w [RtmConnect; ApiCall "users.list" []] in
  load_directory gone (with_calls w [RtmConnect]) = (Ok Demo.directory, w1)
  /\ begin PyStr.find Demo.strip_punctuation (fun _ => gone) Demo.giphy_search Demo.ascii_lower
       (-1) w
     = (Ok tt,
        with_logs w1
          [Debug ("Event handling completed." +:+ PyStr.nl +:+
                  "Stopping Slack monitor.")]).
Proof.
  intros gone w w1.
  assert (Hdir : load_directory gone (with_calls w [RtmConnect])
                 = (Ok Demo.directory, w1)) by (vm_compute; reflexivity).
  split; [exact Hdir|].
  exact (proj2 (begin_returns PyStr.find Demo.strip_punctuation (fun _ => gone)
                  Demo.giphy_search Demo.ascii_lower (-1) w Demo.directory w1 w1
                  eq_refl Hdir eq_refl)
           eq_refl ltac:(discriminate)).
Defined.

(** X23 at work: 'DM only', with a small o, is no run level. *)
Lemma unknown_run_level_disables_witness :
  let sc := Demo.client true [] in
  let ev := Demo.message "D1" "U1" "hello" in
  let w := Demo.world (Demo.handler (Demo.flags true true true true true)
                         "DM only" (Some ["U1"]) None) in
  let w1 := with_calls w [ApiCall "im.info" [("channel", "D1")]] in
  get_msg_type sc ev w = (Ok "IM", w1)
  /\ dispatch PyStr.find Demo.strip_punctuation Demo.giphy_search Demo.ascii_lower sc ev
       Demo.directory w
     = (Ok tt, with_logs w1 [Debug "IM"; Debug "Message not in scope."]).
Proof.
  intros sc ev w w1.
  assert (Hs : get_msg_type sc ev w = (Ok "IM", w1)) by (vm_compute; reflexivity).
  split; [exact Hs|].
  exact (unknown_run_level_disables PyStr.find Demo.strip_punctuation
           Demo.giphy_search Demo.ascii_lower sc ev Demo.directory w "IM" w1
           ltac:(discriminate) ltac:(discriminate) ltac:(discriminate) Hs).
Defined.

(** X25 at work: a third member, with a first name only and no id, is
    left out; Bob Roy is in the directory under his id. *)
Lemma directory_entries_witness :
  let carl : RawUser :=
    {| ru_name := Some "carl"; ru_id := None;
       ru_profile := Some {[ "first_name" := "Carl" ]} |} in
  let w := Demo.world (Demo.handler (Demo.flags true true true true true)
                         "All" (Some ["U1"]) None) in
  directory [Demo.ann; carl; Demo.bob] w = (Ok Demo.directory, w)
  /\ exists user, In user Demo.directory /\ ru_id Demo.bob = Some (id user).
Proof.
  intros carl w.
  assert (Hdir : directory [Demo.ann; carl; Demo.bob] w = (Ok Demo.directory, w))
    by (vm_compute; reflexivity).
  split; [exact Hdir|].
  destruct (directory_entries [Demo.ann; carl; Demo.bob] Demo.directory w w Hdir)
    as (_ & _ & Hcomplete).
  apply (Hcomplete Demo.bob {[ "first_name" := "Bob"; "last_name" := "Roy" ]}).
  - right. right. left. reflexivity.
  - reflexivity.
  - exists "Bob". reflexivity.
  - exists "Roy". reflexivity.
Defined.

(** X26 at work, with a client that does not even connect. *)
Lemma init_all_users_witness :
  let w' := snd (init Demo.load_homophones (fun _ => Demo.client false [])
                   "xoxp-test" true false false false false false false
                   "All" UsersAll None None None
                   (Demo.world (Demo.handler ∅ "" None None))) in
  users (self w') = Some ["U1"; "U2"]
  /\ calls w' = [RtmConnect; ApiCall "users.list" []].
Proof.
  intros w'.
  destruct (init_all_users Demo.load_homophones (fun _ => Demo.client false [])
              "xoxp-test" true false false false false false false
              "All" None None None false [Demo.ann; Demo.bob]
              (Demo.world (Demo.handler ∅ "" None None)) eq_refl eq_refl)
    as (_ & Husers & Hcalls).
  - repeat (constructor; [eexists; reflexivity |]). constructor.
  - split; [exact Husers | exact Hcalls].
Defined.
